(** * gantt-app: the task store (js/store.js) and the tick-interval choice
      of the timeline (js/gantt.js)

    A shallow embedding of the [Store] class: the task list, the id counter,
    the type registry, the snapshot history with its cursor, the critical
    set and the subscriber list, with every method written as a computation
    in a small state/exception/trace monad.

    Modelling conventions.
    - JavaScript numbers that hold ids, counters, indices, progress values
      and minute counts are integers ([Z]).
    - A task is a record with the eleven fields [add] creates.  A field
      that is present in a task, in the argument of [add] or in a patch
      holds a value of the field's type; these values are JSON data, so
      [JSON.parse(JSON.stringify(x))] is a deep copy ([json_clone]).
    - The type registry is a finite map from type names to colours;
      properties an object inherits from [Object.prototype] are not
      modelled.
    - A JS [Set] of ids is the list of its elements in insertion order.
    - Values read from the system clock are passed in as a [Clock].
    - A subscriber callback is an observer: it is invoked with
      [(action, payload)] and either returns or throws.  Callbacks that call
      back into the store while they run are outside the model.
    - Writes to [localStorage] are not modelled.  The current user, which
      only [login], [logout] and [isLoggedIn] touch, is kept apart from the
      store record and threaded through these three.
    - [String.prototype.toLowerCase], which [filter] uses, is a parameter.

    Besides the store, the file models [Table.saveRow] (js/table.js) and
    [escapeHtml] (js/utils.js). *)

From Stdlib Require Import ZArith Lia List Ascii String Bool Sorted.
From stdpp Require Import base option list gmap strings.

Local Open Scope string_scope.
Local Open Scope list_scope.
Local Open Scope Z_scope.

(** ** JavaScript helpers *)

(** The empty string literal. *)
Definition empty_string : string := EmptyString.

(** [a || b] where [a] is a possibly absent string: the empty string and
    [undefined] are both falsy. *)
Definition truthy_str (o : option string) : option string :=
  match o with
  | Some s => if decide (s = empty_string) then None else Some s
  | None => None
  end.

Definition or_str (o : option string) (d : string) : string :=
  match truthy_str o with
  | Some s => s
  | None => d
  end.

(** [a || 0] on a possibly absent number: [0] and [undefined] are falsy. *)
Definition or_num (o : option Z) (d : Z) : Z :=
  match o with
  | Some n => if n =? 0 then d else n
  | None => d
  end.

(** [a || false] on a possibly absent boolean. *)
Definition or_bool (o : option bool) (d : bool) : bool :=
  match o with
  | Some true => true
  | _ => d
  end.

(** [a || []]: every array, also the empty one, is truthy. *)
Definition or_arr {A} (o : option (list A)) (d : list A) : list A :=
  match o with
  | Some l => l
  | None => d
  end.

(** The property key a possibly absent string is coerced to in [obj[key]]. *)
Definition prop_key (o : option string) : string :=
  match o with
  | Some s => s
  | None => "undefined"
  end.

(** [arr.slice(0, e)]: a negative [e] counts from the end. *)
Definition slice0 {A} (l : list A) (e : Z) : list A :=
  let len := Z.of_nat (length l) in
  let k := if e <? 0 then Z.max (len + e) 0 else Z.min e len in
  take (Z.to_nat k) l.

(** [arr[i]]: [undefined] outside the array. *)
Definition at_index {A} (l : list A) (i : Z) : option A :=
  if i <? 0 then None else l !! Z.to_nat i.

(** [arr.shift()]: drops the first element. *)
Definition shift {A} (l : list A) : list A := tail l.

(** [Math.max(...xs, 0)]. *)
Definition max_with_zero (xs : list Z) : Z := fold_right Z.max 0 xs.

(** *** [parseInt] on a dependency entry

    A dependency entry is a number or a string (the demo data stores
    ['1']).  For a number, an integer like the ids, [parseInt] returns it.
    For a string, [parseInt] skips leading white space, reads an
    optional sign and an optional [0x] prefix, and converts the longest
    prefix of digits; it yields [NaN] ([None]) when there is no digit.
    White space is the ASCII white space. *)
Inductive DepRef : Type :=
  | DNum (n : Z)
  | DStr (s : string).

#[global] Instance DepRef_eq_dec : EqDecision DepRef.
Proof. solve_decision. Defined.

Definition is_ws (c : ascii) : bool :=
  let n := nat_of_ascii c in
  ((9 <=? n) && (n <=? 13))%nat || (n =? 32)%nat.

Fixpoint skip_ws (s : string) : string :=
  match s with
  | String c r => if is_ws c then skip_ws r else s
  | EmptyString => s
  end.

Definition digit_val (radix : Z) (c : ascii) : option Z :=
  let n := Z.of_nat (nat_of_ascii c) in
  let v :=
    if (48 <=? n) && (n <=? 57) then Some (n - 48)
    else if (97 <=? n) && (n <=? 122) then Some (n - 87)
    else if (65 <=? n) && (n <=? 90) then Some (n - 55)
    else None in
  match v with
  | Some d => if d <? radix then Some d else None
  | None => None
  end.

Fixpoint parse_digits (radix : Z) (s : string) (acc : option Z) : option Z :=
  match s with
  | String c r =>
      match digit_val radix c with
      | Some d => parse_digits radix r (Some (default 0 acc * radix + d))
      | None => acc
      end
  | EmptyString => acc
  end.

Definition parseInt_str (s : string) : option Z :=
  let s := skip_ws s in
  let '(sign, s) :=
    match s with
    | String "-" r => (-1, r)
    | String "+" r => (1, r)
    | _ => (1, s)
    end in
  let '(radix, s) :=
    match s with
    | String "0" (String "x" r) => (16, r)
    | String "0" (String "X" r) => (16, r)
    | _ => (10, s)
    end in
  match parse_digits radix s None with
  | Some v => Some (sign * v)
  | None => None
  end.

Definition parseInt (d : DepRef) : option Z :=
  match d with
  | DNum n => Some n
  | DStr s => parseInt_str s
  end.

(** *** A JS [Set] of numbers, as its elements in insertion order *)
Definition JsSet : Type := list Z.

Definition set_has (x : Z) (s : JsSet) : bool := bool_decide (x ∈ s).

Definition set_add (x : Z) (s : JsSet) : JsSet :=
  if set_has x s then s else s ++ [x].

Definition set_delete (x : Z) (s : JsSet) : JsSet :=
  filter (fun y => y ≠ x) s.

(** [new Set(array)]. *)
Definition set_of_array (xs : list Z) : JsSet :=
  fold_left (fun s x => set_add x s) xs [].

(** [Array.from(set)]. *)
Definition array_from (s : JsSet) : list Z := s.

(** ** Data model *)

Record Task : Type := mkTask {
  t_id : Z;
  t_type : string;
  t_task : string;
  t_start : string;
  t_end : string;
  t_progress : Z;
  t_priority : string;
  t_milestone : bool;
  t_owner : string;
  t_dependencies : list DepRef;
  t_color : string
}.

#[global] Instance Task_eq_dec : EqDecision Task.
Proof. solve_decision. Defined.

(** The argument of [add]: any field may be missing. *)
Record TaskInput : Type := mkInput {
  ti_type : option string;
  ti_task : option string;
  ti_start : option string;
  ti_end : option string;
  ti_progress : option Z;
  ti_priority : option string;
  ti_milestone : option bool;
  ti_owner : option string;
  ti_dependencies : option (list DepRef);
  ti_color : option string
}.

(** The [fields] argument of [update]: the properties present in the patch. *)
Record Patch : Type := mkPatch {
  p_id : option Z;
  p_type : option string;
  p_task : option string;
  p_start : option string;
  p_end : option string;
  p_progress : option Z;
  p_priority : option string;
  p_milestone : option bool;
  p_owner : option string;
  p_dependencies : option (list DepRef);
  p_color : option string
}.

(** [{ data, nextId, criticalTasks }] as stored in a history entry. *)
Record Snapshot : Type := mkSnapshot {
  snap_data : list Task;
  snap_nextId : Z;
  snap_criticalTasks : list Z
}.

Record HistoryEntry : Type := mkEntry {
  h_state : Snapshot;
  h_description : string;
  h_timestamp : Z
}.

(** A registered callback: its identity (callbacks are compared with [!==])
    and whether a call with the given action and payload throws. *)
Record Subscriber : Type := mkSubscriber {
  cb_id : nat;
  cb_throws : string -> option Task -> bool
}.

(** What the system clock yields during a call: [Date.now()],
    [new Date().toISOString().slice(0, 16)] and
    [new Date(Date.now() + 3600000).toISOString().slice(0, 16)]. *)
Record Clock : Type := mkClock {
  clock_now : Z;
  clock_iso : string;
  clock_iso_plus_hour : string
}.

Record Store : Type := mkStore {
  data : list Task;
  nextId : Z;
  types : gmap string string;
  history : list HistoryEntry;
  historyIndex : Z;
  maxHistory : Z;
  criticalTasks : JsSet;
  projectName : string;
  subscribers : list Subscriber
}.

Definition set_data (v : list Task) (s : Store) : Store :=
  mkStore v (nextId s) (types s) (history s) (historyIndex s) (maxHistory s)
          (criticalTasks s) (projectName s) (subscribers s).
Definition set_nextId (v : Z) (s : Store) : Store :=
  mkStore (data s) v (types s) (history s) (historyIndex s) (maxHistory s)
          (criticalTasks s) (projectName s) (subscribers s).
Definition set_types (v : gmap string string) (s : Store) : Store :=
  mkStore (data s) (nextId s) v (history s) (historyIndex s) (maxHistory s)
          (criticalTasks s) (projectName s) (subscribers s).
Definition set_history (v : list HistoryEntry) (s : Store) : Store :=
  mkStore (data s) (nextId s) (types s) v (historyIndex s) (maxHistory s)
          (criticalTasks s) (projectName s) (subscribers s).
Definition set_historyIndex (v : Z) (s : Store) : Store :=
  mkStore (data s) (nextId s) (types s) (history s) v (maxHistory s)
          (criticalTasks s) (projectName s) (subscribers s).
Definition set_criticalTasks (v : JsSet) (s : Store) : Store :=
  mkStore (data s) (nextId s) (types s) (history s) (historyIndex s)
          (maxHistory s) v (projectName s) (subscribers s).
Definition set_projectName (v : string) (s : Store) : Store :=
  mkStore (data s) (nextId s) (types s) (history s) (historyIndex s)
          (maxHistory s) (criticalTasks s) v (subscribers s).
Definition set_subscribers (v : list Subscriber) (s : Store) : Store :=
  mkStore (data s) (nextId s) (types s) (history s) (historyIndex s)
          (maxHistory s) (criticalTasks s) (projectName s) v.

(** ** The monad of store methods

    A method runs on a store and yields the store it leaves behind, the
    subscriber invocations it made, in order, and either a return value or
    the exception it threw.  A throw keeps the mutations made before it. *)

Inductive Exn : Type :=
  | SubscriberError (cb : nat)
  | TypeError
  | SyntaxError.

Inductive Completion (A : Type) : Type :=
  | Normal (a : A)
  | Throw (e : Exn).
Arguments Normal {A} a.
Arguments Throw {A} e.

(** One call [cb(action, payload)]. *)
Inductive Event : Type :=
  | Invoke (cb : nat) (action : string) (payload : option Task).

Record Result (A : Type) : Type := mkResult {
  res_store : Store;
  res_trace : list Event;
  res_val : Completion A
}.
Arguments mkResult {A} _ _ _.
Arguments res_store {A} _.
Arguments res_trace {A} _.
Arguments res_val {A} _.

Definition M (A : Type) : Type := Store -> Result A.

Definition ret {A} (a : A) : M A := fun s => mkResult s [] (Normal a).

Definition throw {A} (e : Exn) : M A := fun s => mkResult s [] (Throw e).

Definition bind {A B} (m : M A) (f : A -> M B) : M B :=
  fun s =>
    let r := m s in
    match res_val r with
    | Normal a =>
        let r' := f a (res_store r) in
        mkResult (res_store r') (res_trace r ++ res_trace r') (res_val r')
    | Throw e => mkResult (res_store r) (res_trace r) (Throw e)
    end.

Definition get : M Store := fun s => mkResult s [] (Normal s).

Definition modify (f : Store -> Store) : M unit :=
  fun s => mkResult (f s) [] (Normal tt).

(** [try { m } catch (e) { h }]. *)
Definition try_catch {A} (m : M A) (h : Exn -> M A) : M A :=
  fun s =>
    let r := m s in
    match res_val r with
    | Normal a => r
    | Throw e =>
        let r' := h e (res_store r) in
        mkResult (res_store r') (res_trace r ++ res_trace r') (res_val r')
    end.

Notation "'call' x <- m 'in' k" := (bind m (fun x => k))
  (at level 10, x name, m at level 100, k at level 200).
Notation "'exec' m 'in' k" := (bind m (fun _ => k))
  (at level 10, m at level 100, k at level 200).

(** ** Constants and the constructor *)

Definition DEFAULT_TYPES : gmap string string :=
  list_to_map
    [ ("Транспорт", "#5da7ff");
      ("Разгрузка", "#90be6d");
      ("Погрузка", "#80ffea");
      ("Монтаж", "#ffd166");
      ("Демонтаж", "#ff6b6b");
      ("Пуско-наладка", "#f9c74f");
      ("Уборка", "#bdb2ff");
      ("Репетиция", "#a0c4ff");
      ("Веха", "#d56cff") ].

(** [new Store()]; the arguments are what [localStorage] holds under
    [gantt_types] ([None] when the key is absent or its value does not
    parse) and under [gantt_project_name]. *)
Definition newStore (savedTypes : option (gmap string string))
    (savedName : option string) : Store :=
  {| data := [];
     nextId := 1;
     types := default DEFAULT_TYPES savedTypes;
     history := [];
     historyIndex := -1;
     maxHistory := 50;
     criticalTasks := [];
     projectName := or_str savedName "Мой проект";
     subscribers := [] |}.

(** ** Subscriptions *)

(** [subscribers.forEach(cb => cb(action, data))]: the callbacks are called
    in registration order; the first one that throws ends the loop and its
    exception leaves [forEach]. *)
Fixpoint forEach_call (cbs : list Subscriber) (action : string)
    (payload : option Task) : list Event * Completion unit :=
  match cbs with
  | [] => ([], Normal tt)
  | cb :: rest =>
      if cb_throws cb action payload
      then ([Invoke (cb_id cb) action payload],
            Throw (SubscriberError (cb_id cb)))
      else
        let '(tr, c) := forEach_call rest action payload in
        (Invoke (cb_id cb) action payload :: tr, c)
  end.

Definition notify (action : string) (payload : option Task) : M unit :=
  fun s =>
    let '(tr, c) := forEach_call (subscribers s) action payload in
    mkResult s tr c.

Definition subscribe (callback : Subscriber) : M unit :=
  modify (fun s => set_subscribers (subscribers s ++ [callback]) s).

(** The function [subscribe] returns. *)
Definition unsubscribe (callback : Subscriber) : M unit :=
  modify (fun s =>
    set_subscribers
      (filter (fun cb => cb_id cb ≠ cb_id callback) (subscribers s)) s).

(** ** Tasks *)

Definition getAll (s : Store) : list Task := data s.

(** [this.data.find(t => t.id === id)]. *)
Definition getById (id : Z) (s : Store) : option Task :=
  find (fun t => t_id t =? id) (data s).

(** [JSON.parse(JSON.stringify(data))]: a field-by-field copy. *)
Definition clone_dep (d : DepRef) : DepRef :=
  match d with
  | DNum n => DNum n
  | DStr s => DStr s
  end.

Definition clone_task (t : Task) : Task :=
  mkTask (t_id t) (t_type t) (t_task t) (t_start t) (t_end t) (t_progress t)
         (t_priority t) (t_milestone t) (t_owner t)
         (map clone_dep (t_dependencies t)) (t_color t).

Definition json_clone (l : list Task) : list Task := map clone_task l.

(** *** History *)

Definition saveState (clk : Clock) (description : string) : M unit :=
  call s <- get in
  let state :=
    {| snap_data := json_clone (data s);
       snap_nextId := nextId s;
       snap_criticalTasks := array_from (criticalTasks s) |} in
  exec (if historyIndex s <? Z.of_nat (length (history s)) - 1
        then modify (fun s =>
               set_history (slice0 (history s) (historyIndex s + 1)) s)
        else ret tt) in
  exec modify (fun s =>
         set_history
           (history s ++ [mkEntry state description (clock_now clk)]) s) in
  call s <- get in
  exec (if Z.of_nat (length (history s)) >? maxHistory s
        then modify (fun s => set_history (shift (history s)) s)
        else modify (fun s => set_historyIndex (historyIndex s + 1) s)) in
  notify "history-change" None.

Definition restoreState (state : Snapshot) : M unit :=
  exec modify (set_data (json_clone (snap_data state))) in
  exec modify (set_nextId (snap_nextId state)) in
  modify (set_criticalTasks (set_of_array (snap_criticalTasks state))).

(** [this.restoreState(this.history[this.historyIndex].state)]: reading
    [.state] of [undefined] is a [TypeError]. *)
Definition restore_at_cursor : M unit :=
  call s <- get in
  match at_index (history s) (historyIndex s) with
  | Some entry => restoreState (h_state entry)
  | None => throw TypeError
  end.

Definition undo : M bool :=
  call s <- get in
  if historyIndex s >? 0 then
    exec modify (fun s => set_historyIndex (historyIndex s - 1) s) in
    exec restore_at_cursor in
    exec notify "undo" None in
    ret true
  else ret false.

Definition redo : M bool :=
  call s <- get in
  if historyIndex s <? Z.of_nat (length (history s)) - 1 then
    exec modify (fun s => set_historyIndex (historyIndex s + 1) s) in
    exec restore_at_cursor in
    exec notify "redo" None in
    ret true
  else ret false.

Definition canUndo (s : Store) : bool := historyIndex s >? 0.

Definition canRedo (s : Store) : bool :=
  historyIndex s <? Z.of_nat (length (history s)) - 1.

(** *** add, update, delete, duplicate *)

(** The object literal [newTask] of [add], evaluated on the store [s]:
    [this.nextId++] yields the value the counter has in [s]. *)
Definition new_task (clk : Clock) (task : TaskInput) (s : Store) : Task :=
  {| t_id := nextId s;
     t_type := or_str (ti_type task) empty_string;
     t_task := or_str (ti_task task) "Новая работа";
     t_start := or_str (ti_start task) (clock_iso clk);
     t_end := or_str (ti_end task) (clock_iso_plus_hour clk);
     t_progress := or_num (ti_progress task) 0;
     t_priority := or_str (ti_priority task) "medium";
     t_milestone := or_bool (ti_milestone task) false;
     t_owner := or_str (ti_owner task) empty_string;
     t_dependencies := or_arr (ti_dependencies task) [];
     t_color :=
       or_str (ti_color task)
         (or_str (types s !! prop_key (ti_type task)) "#5da7ff") |}.

Definition add (clk : Clock) (task : TaskInput) : M Task :=
  call s <- get in
  let newTask := new_task clk task s in
  exec modify (fun s => set_nextId (nextId s + 1) s) in
  exec modify (fun s => set_data (data s ++ [newTask]) s) in
  exec saveState clk "Добавление работы" in
  exec notify "add" (Some newTask) in
  ret newTask.

(** [Object.assign(task, fields)]. *)
Definition assign (t : Task) (f : Patch) : Task :=
  {| t_id := default (t_id t) (p_id f);
     t_type := default (t_type t) (p_type f);
     t_task := default (t_task t) (p_task f);
     t_start := default (t_start t) (p_start f);
     t_end := default (t_end t) (p_end f);
     t_progress := default (t_progress t) (p_progress f);
     t_priority := default (t_priority t) (p_priority f);
     t_milestone := default (t_milestone t) (p_milestone f);
     t_owner := default (t_owner t) (p_owner f);
     t_dependencies := default (t_dependencies t) (p_dependencies f);
     t_color := default (t_color t) (p_color f) |}.

Definition set_color (c : string) (t : Task) : Task :=
  mkTask (t_id t) (t_type t) (t_task t) (t_start t) (t_end t) (t_progress t)
         (t_priority t) (t_milestone t) (t_owner t) (t_dependencies t) c.

(** What [update] makes of the task object it found. *)
Definition patched (tys : gmap string string) (t : Task) (f : Patch) : Task :=
  let t1 := assign t f in
  match truthy_str (p_type f), truthy_str (p_color f) with
  | Some ty, None => set_color (or_str (tys !! ty) (t_color t1)) t1
  | _, _ => t1
  end.

(** The task list after the object [getById id] found was mutated into
    [t']: the first task with that id is the one that changes. *)
Fixpoint replace_first (id : Z) (t' : Task) (l : list Task) : list Task :=
  match l with
  | [] => []
  | t :: rest =>
      if t_id t =? id then t' :: rest else t :: replace_first id t' rest
  end.

Definition update (clk : Clock) (id : Z) (fields : Patch) : M (option Task) :=
  call s <- get in
  match getById id s with
  | Some task =>
      let task' := patched (types s) task fields in
      exec modify (fun s => set_data (replace_first id task' (data s)) s) in
      exec saveState clk "Обновление работы" in
      exec notify "update" (Some task') in
      ret (Some task')
  | None => ret None
  end.

(** [this.data.findIndex(t => t.id === id)], [None] for [-1]. *)
Fixpoint findIndex (id : Z) (l : list Task) : option nat :=
  match l with
  | [] => None
  | t :: rest =>
      if t_id t =? id then Some 0%nat else option_map S (findIndex id rest)
  end.

(** The array after [splice(index, 1)]. *)
Definition splice1 {A} (index : nat) (l : list A) : list A :=
  take index l ++ drop (S index) l.

Definition delete (clk : Clock) (id : Z) : M (option Task) :=
  call s <- get in
  match findIndex id (data s) with
  | Some index =>
      let deleted := data s !! index in
      exec modify (fun s => set_data (splice1 index (data s)) s) in
      exec modify (fun s =>
             set_criticalTasks (set_delete id (criticalTasks s)) s) in
      exec saveState clk "Удаление работы" in
      exec notify "delete" deleted in
      ret deleted
  | None => ret None
  end.

(** [{ ...task, task: task.task + ' (копия)' }] without its [id]. *)
Definition copy_input (t : Task) : TaskInput :=
  {| ti_type := Some (t_type t);
     ti_task := Some (String.append (t_task t) " (копия)");
     ti_start := Some (t_start t);
     ti_end := Some (t_end t);
     ti_progress := Some (t_progress t);
     ti_priority := Some (t_priority t);
     ti_milestone := Some (t_milestone t);
     ti_owner := Some (t_owner t);
     ti_dependencies := Some (t_dependencies t);
     ti_color := Some (t_color t) |}.

Definition duplicate (clk : Clock) (id : Z) : M (option Task) :=
  call s <- get in
  match getById id s with
  | Some task =>
      call t <- add clk (copy_input task) in
      ret (Some t)
  | None => ret None
  end.

(** *** Type registry *)

Definition getTypes (s : Store) : gmap string string := types s.

Definition addType (name color : string) : M unit :=
  exec modify (fun s => set_types (<[name := color]> (types s)) s) in
  notify "types-change" None.

(** The renaming of [updateType] applied to one task. *)
Definition retype (oldName newName color : string) (t : Task) : Task :=
  if decide (t_type t = oldName)
  then mkTask (t_id t) newName (t_task t) (t_start t) (t_end t)
              (t_progress t) (t_priority t) (t_milestone t) (t_owner t)
              (t_dependencies t) color
  else t.

Definition updateType (oldName newName color : string) : M unit :=
  exec (if decide (oldName = newName) then ret tt
        else
          exec modify (fun s =>
                 set_types (base.delete oldName (types s)) s) in
          modify (fun s =>
            set_data (map (retype oldName newName color) (data s)) s)) in
  exec modify (fun s => set_types (<[newName := color]> (types s)) s) in
  notify "types-change" None.

Definition deleteType (name : string) : M unit :=
  exec modify (fun s => set_types (base.delete name (types s)) s) in
  notify "types-change" None.

(** *** Critical path *)

(** First loop: [if (task.priority === 'high') criticalTasks.add(task.id)]. *)
Definition mark_high (c : JsSet) (task : Task) : JsSet :=
  if decide (t_priority task = "high") then set_add (t_id task) c else c.

(** Body of the inner loop over [task.dependencies]. *)
Definition mark_dep (s : Store) (c : JsSet) (depId : DepRef) : JsSet :=
  match parseInt depId with
  | Some n =>
      match getById n s with
      | Some depTask => set_add (t_id depTask) c
      | None => c
      end
  | None => c
  end.

(** Second loop, for one task. *)
Definition mark_deps (s : Store) (c : JsSet) (task : Task) : JsSet :=
  fold_left (mark_dep s) (t_dependencies task) c.

Definition calculateCriticalPath : M (list Z) :=
  exec modify (set_criticalTasks []) in
  exec modify (fun s =>
         set_criticalTasks (fold_left mark_high (data s) (criticalTasks s)) s) in
  exec modify (fun s =>
         set_criticalTasks
           (fold_left (mark_deps s) (data s) (criticalTasks s)) s) in
  call s <- get in
  ret (array_from (criticalTasks s)).

Definition isCritical (id : Z) (s : Store) : bool :=
  set_has id (criticalTasks s).

Definition toggleCritical (id : Z) : M unit :=
  modify (fun s =>
    if set_has id (criticalTasks s)
    then set_criticalTasks (set_delete id (criticalTasks s)) s
    else set_criticalTasks (set_add id (criticalTasks s)) s).

(** *** Project *)

Definition setProjectName (name : string) : M unit :=
  exec modify (set_projectName name) in
  notify "project-change" None.

Definition getProjectName (s : Store) : string := projectName s.

(** *** Import *)

(** The value [importData] works on: an object with the three properties it
    reads, or an array of tasks (the old format). *)
Inductive ImportValue : Type :=
  | ImpObject (name : option string) (tys : option (gmap string string))
              (tasks : option (list Task))
  | ImpArray (tasks : list Task).

(** The argument of [importData]: a string that [JSON.parse] rejects, the
    value [null] (reading a property of it throws), or a value. *)
Inductive ImportArg : Type :=
  | BadJson
  | NullValue
  | Value (v : ImportValue).

Definition imp_projectName (v : ImportValue) : option string :=
  match v with
  | ImpObject name _ _ => name
  | ImpArray _ => None
  end.

Definition imp_types (v : ImportValue) : option (gmap string string) :=
  match v with
  | ImpObject _ tys _ => tys
  | ImpArray _ => None
  end.

(** The array chosen by the two [Array.isArray] tests. *)
Definition imp_data (v : ImportValue) : option (list Task) :=
  match v with
  | ImpObject _ _ tasks => tasks
  | ImpArray tasks => Some tasks
  end.

Definition importData (clk : Clock) (json : ImportArg) : M bool :=
  try_catch
    (call imported <-
       match json with
       | BadJson => throw SyntaxError
       | NullValue => throw TypeError
       | Value v => ret v
       end in
     exec match truthy_str (imp_projectName imported) with
          | Some name => modify (set_projectName name)
          | None => ret tt
          end in
     exec match imp_types imported with
          | Some tys => modify (set_types (tys ∪ DEFAULT_TYPES))
          | None => ret tt
          end in
     exec match imp_data imported with
          | Some tasks =>
              exec modify (set_data tasks) in
              modify (fun s =>
                set_nextId (max_with_zero (map t_id (data s)) + 1) s)
          | None => ret tt
          end in
     exec modify (set_history []) in
     exec modify (set_historyIndex (-1)) in
     exec saveState clk "Импорт данных" in
     exec notify "import" None in
     ret true)
    (fun _ => ret false).

(** ** Authorization *)

Record User : Type := mkUser {
  u_username : string;
  u_password : string;
  u_name : string
}.

Definition USERS : list User :=
  [ mkUser "admin" "admin123" "Администратор";
    mkUser "manager" "manager123" "Менеджер";
    mkUser "user" "user123" "Пользователь" ].

(** The value of [this.currentUser] when somebody is logged in. *)
Record Session : Type := mkSession {
  ses_username : string;
  ses_name : string
}.

(** [login], [logout] and [isLoggedIn] read and write [this.currentUser]
    only; it is threaded through them. *)
Definition login (username password : string) (currentUser : option Session)
    : option Session * bool :=
  match find (fun u => bool_decide (u_username u = username) &&
                       bool_decide (u_password u = password)) USERS with
  | Some user => (Some (mkSession (u_username user) (u_name user)), true)
  | None => (currentUser, false)
  end.

Definition logout (currentUser : option Session) : option Session := None.

Definition isLoggedIn (currentUser : option Session) : bool :=
  match currentUser with
  | Some _ => true
  | None => false
  end.

(** ** Filtering *)

(** The argument of [filter]. *)
Record FilterOptions : Type := mkFilter {
  f_search : option string;
  f_type : option string;
  f_priority : option string;
  f_criticalOnly : option bool
}.

(** [s.includes(sub)]: [sub] occurs in [s]. *)
Fixpoint includes (s sub : string) : bool :=
  String.prefix sub s ||
  match s with
  | String _ rest => includes rest sub
  | EmptyString => false
  end.

(** [Store.filter]; [toLowerCase] stands for [String.prototype.toLowerCase]. *)
Definition Store_filter (toLowerCase : string -> string)
    (options : FilterOptions) (s : Store) : list Task :=
  let result := data s in
  let result :=
    match truthy_str (f_search options) with
    | Some q =>
        let search := toLowerCase q in
        List.filter (fun t => includes (toLowerCase (t_task t)) search ||
                              includes (toLowerCase (t_type t)) search) result
    | None => result
    end in
  let result :=
    match truthy_str (f_type options) with
    | Some ty => List.filter (fun t => bool_decide (t_type t = ty)) result
    | None => result
    end in
  let result :=
    match truthy_str (f_priority options) with
    | Some p => List.filter (fun t => bool_decide (t_priority t = p)) result
    | None => result
    end in
  if or_bool (f_criticalOnly options) false
  then List.filter (fun t => set_has (t_id t) (criticalTasks s)) result
  else result.

(** ** Export *)

(** The object [exportData] returns. *)
Record Exported : Type := mkExported {
  ex_projectName : string;
  ex_data : list Task;
  ex_types : gmap string string;
  ex_exportedAt : string
}.

(** [exportData]; [exportedAt] is the value of [new Date().toISOString()]. *)
Definition exportData (exportedAt : string) (s : Store) : Exported :=
  {| ex_projectName := projectName s;
     ex_data := data s;
     ex_types := types s;
     ex_exportedAt := exportedAt |}.

(** An exported object as [importData] reads it: its [projectName], its
    [types] and its [data], an array. *)
Definition exported_value (e : Exported) : ImportValue :=
  ImpObject (Some (ex_projectName e)) (Some (ex_types e)) (Some (ex_data e)).

(** ** Callers of the store *)

(** [Gantt.chooseTickInterval] (js/gantt.js). *)
Definition chooseTickInterval (spanMinutes : Z) : Z :=
  if spanMinutes <=? 480 then 30
  else if spanMinutes <=? 1440 then 60
  else if spanMinutes <=? 2880 then 120
  else if spanMinutes <=? 10080 then 720
  else 1440.

(** The progress value [Table.saveRow] (js/table.js) puts into the patch:
    [Math.max(0, Math.min(100, parseInt(input.value) || 0))]; the argument
    is the result of [parseInt], [None] for [NaN]. *)
Definition saveRow_progress (parsed : option Z) : Z :=
  Z.max 0 (Z.min 100 (or_num parsed 0)).

(** The values of the inputs of a table row that carry a [data-field]. *)
Record RowInputs : Type := mkRow {
  row_type : string;
  row_task : string;
  row_start : string;
  row_end : string;
  row_progress : string;
  row_priority : string;
  row_owner : string
}.

(** The [fields] object [Table.saveRow] builds from a row: every input
    value as it is, the progress parsed and clamped, and the colour of the
    selected type when the registry has one. *)
Definition saveRow_fields (tys : gmap string string) (row : RowInputs) : Patch :=
  let progress := saveRow_progress (parseInt_str (row_progress row)) in
  let color :=
    match truthy_str (Some (row_type row)) with
    | Some ty => truthy_str (tys !! ty)
    | None => None
    end in
  {| p_id := None;
     p_type := Some (row_type row);
     p_task := Some (row_task row);
     p_start := Some (row_start row);
     p_end := Some (row_end row);
     p_progress := Some progress;
     p_priority := Some (row_priority row);
     p_milestone := None;
     p_owner := Some (row_owner row);
     p_dependencies := None;
     p_color := color |}.

(** [Table.saveRow(id, tr)] (js/table.js). *)
Definition saveRow (clk : Clock) (id : Z) (row : RowInputs) : M unit :=
  call s <- get in
  exec update clk id (saveRow_fields (getTypes s) row) in
  ret tt.

(** The double quote character. *)
Definition dquote : ascii := ascii_of_nat 34.

(** The characters [escapeHtml] replaces. *)
Definition special (c : ascii) : Prop :=
  c = "&"%char \/ c = "<"%char \/ c = ">"%char \/ c = dquote \/ c = "'"%char.

(** The replacement [escapeHtml] makes for one character. *)
Definition escape_char (c : ascii) : string :=
  if Ascii.eqb c "&" then "&amp;"
  else if Ascii.eqb c "<" then "&lt;"
  else if Ascii.eqb c ">" then "&gt;"
  else if Ascii.eqb c dquote then "&quot;"
  else if Ascii.eqb c "'" then "&#39;"
  else String c EmptyString.

Fixpoint escape_all (s : string) : string :=
  match s with
  | EmptyString => EmptyString
  | String c rest => String.append (escape_char c) (escape_all rest)
  end.

(** [escapeHtml] (js/utils.js); a missing or empty argument gives the empty
    string. *)
Definition escapeHtml (s : option string) : string :=
  match truthy_str s with
  | Some s => escape_all s
  | None => empty_string
  end.

(** ** Runs of the store *)

(** One call of a method of the store from outside. *)
Inductive Call : Type :=
  | CAdd (clk : Clock) (task : TaskInput)
  | CUpdate (clk : Clock) (id : Z) (fields : Patch)
  | CDelete (clk : Clock) (id : Z)
  | CDuplicate (clk : Clock) (id : Z)
  | CSaveState (clk : Clock) (description : string)
  | CUndo
  | CRedo
  | CAddType (name color : string)
  | CUpdateType (oldName newName color : string)
  | CDeleteType (name : string)
  | CCalculateCriticalPath
  | CToggleCritical (id : Z)
  | CSetProjectName (name : string)
  | CSubscribe (callback : Subscriber)
  | CUnsubscribe (callback : Subscriber)
  | CImportData (clk : Clock) (json : ImportArg).

(** The store a call leaves behind, whether it returns or throws. *)
Definition step (c : Call) (s : Store) : Store :=
  match c with
  | CAdd clk task => res_store (add clk task s)
  | CUpdate clk id fields => res_store (update clk id fields s)
  | CDelete clk id => res_store (delete clk id s)
  | CDuplicate clk id => res_store (duplicate clk id s)
  | CSaveState clk d => res_store (saveState clk d s)
  | CUndo => res_store (undo s)
  | CRedo => res_store (redo s)
  | CAddType n c => res_store (addType n c s)
  | CUpdateType o n c => res_store (updateType o n c s)
  | CDeleteType n => res_store (deleteType n s)
  | CCalculateCriticalPath => res_store (calculateCriticalPath s)
  | CToggleCritical id => res_store (toggleCritical id s)
  | CSetProjectName n => res_store (setProjectName n s)
  | CSubscribe cb => res_store (subscribe cb s)
  | CUnsubscribe cb => res_store (unsubscribe cb s)
  | CImportData clk json => res_store (importData clk json s)
  end.

Definition run (cs : list Call) (s : Store) : Store :=
  fold_left (fun s c => step c s) cs s.

(** The states a session can be in: those a sequence of calls reaches from
    a newly constructed store. *)
Definition reachable (s : Store) : Prop :=
  exists savedTypes savedName cs, s = run cs (newStore savedTypes savedName).

(** The id a call hands out: the id of the task [add] (or [duplicate])
    returns. *)
Definition returned_id (c : Call) (s : Store) : option Z :=
  match c with
  | CAdd clk task =>
      match res_val (add clk task s) with
      | Normal t => Some (t_id t)
      | Throw _ => None
      end
  | CDuplicate clk id =>
      match res_val (duplicate clk id s) with
      | Normal (Some t) => Some (t_id t)
      | _ => None
      end
  | _ => None
  end.

(** The ids handed out during a run, in order. *)
Fixpoint returned_ids (cs : list Call) (s : Store) : list Z :=
  match cs with
  | [] => []
  | c :: rest =>
      match returned_id c s with
      | Some i => i :: returned_ids rest (step c s)
      | None => returned_ids rest (step c s)
      end
  end.

(** ** Notions used in the statements and proofs *)

(** The live state a snapshot records. *)
Definition live (s : Store) : Snapshot :=
  {| snap_data := data s;
     snap_nextId := nextId s;
     snap_criticalTasks := array_from (criticalTasks s) |}.

(** The history invariant: the cursor is [-1] on an empty history and else
    an index into it, and the history holds at most [maxHistory] entries. *)
Definition hist_ok (s : Store) : Prop :=
  -1 <= historyIndex s < Z.of_nat (length (history s)) /\
  Z.of_nat (length (history s)) <= maxHistory s /\
  maxHistory s = 50.

(** The store [saveState] leaves behind, as a function of the store it
    starts from (see [saveState_eq]). *)
Definition kept (s : Store) : list HistoryEntry :=
  if historyIndex s <? Z.of_nat (length (history s)) - 1
  then slice0 (history s) (historyIndex s + 1)
  else history s.

Definition saved (clk : Clock) (description : string) (s : Store) : Store :=
  let h := kept s ++ [mkEntry (live s) description (clock_now clk)] in
  if Z.of_nat (length h) >? maxHistory s
  then set_history (shift h) s
  else set_historyIndex (historyIndex s + 1) (set_history h s).

(** The cursor is on a snapshot of the live state. *)
Definition synced (s : Store) : Prop :=
  exists e, at_index (history s) (historyIndex s) = Some e /\
            h_state e = live s.

(** The store with the new task appended under the next id: what [add] has
    done when it calls [saveState]. *)
Definition pushed (clk : Clock) (task : TaskInput) (s : Store) : Store :=
  set_data (data s ++ [new_task clk task s]) (set_nextId (nextId s + 1) s).

(** A computation that only notifies: it leaves the store as it is and can
    only throw what a subscriber throws. *)
Definition notifier {A} (m : M A) : Prop :=
  forall s, res_store (m s) = s /\
            forall e, res_val (m s) = Throw e ->
                      exists cb, cb ∈ subscribers s /\ e = SubscriberError (cb_id cb).

(** The two notifications a saving method makes before it returns [v]. *)
Definition announce {A} (action : string) (payload : option Task) (v : A) : M A :=
  exec notify "history-change" None in
  exec notify action payload in
  ret v.

(** The store [restoreState] produces. *)
Definition restored (state : Snapshot) (s : Store) : Store :=
  set_criticalTasks (set_of_array (snap_criticalTasks state))
    (set_nextId (snap_nextId state) (set_data (snap_data state) s)).

(** The store after the cursor moved to [i] and the snapshot there, if there
    is one, was restored. *)
Definition moved_to (i : Z) (s : Store) : Store :=
  match at_index (history s) i with
  | Some e => restored (h_state e) (set_historyIndex i s)
  | None => set_historyIndex i s
  end.

(** The store [importData] has built when it calls [saveState]. *)
Definition import_named (v : ImportValue) (s : Store) : Store :=
  match truthy_str (imp_projectName v) with
  | Some name => set_projectName name s
  | None => s
  end.

Definition import_typed (v : ImportValue) (s : Store) : Store :=
  match imp_types v with
  | Some tys => set_types (tys ∪ DEFAULT_TYPES) s
  | None => s
  end.

Definition import_filled (v : ImportValue) (s : Store) : Store :=
  match imp_data v with
  | Some tasks =>
      set_nextId (max_with_zero (map t_id tasks) + 1) (set_data tasks s)
  | None => s
  end.

Definition imported_store (v : ImportValue) (s : Store) : Store :=
  set_historyIndex (-1)
    (set_history [] (import_filled v (import_typed v (import_named v s)))).

(** The entry under the cursor, [history[historyIndex]]. *)
Definition cursor_entry (s : Store) : option HistoryEntry :=
  at_index (history s) (historyIndex s).

(** Calls that change the task list and record the change in the history. *)
Definition mutates (c : Call) (s : Store) : bool :=
  match c with
  | CAdd _ _ => true
  | CUpdate _ id _ | CDuplicate _ id =>
      match getById id s with Some _ => true | None => false end
  | CDelete _ id =>
      match findIndex id (data s) with Some _ => true | None => false end
  | _ => false
  end.

(** The three editing operations. *)
Inductive Edit : Type :=
  | EAdd (clk : Clock) (task : TaskInput)
  | EUpdate (clk : Clock) (id : Z) (fields : Patch)
  | EDelete (clk : Clock) (id : Z).

Definition call_of (e : Edit) : Call :=
  match e with
  | EAdd clk task => CAdd clk task
  | EUpdate clk id fields => CUpdate clk id fields
  | EDelete clk id => CDelete clk id
  end.

(** What holds of the store during a run of edits. *)
Definition edit_inv (s : Store) : Prop :=
  hist_ok s /\ NoDup (criticalTasks s) /\ (0 <= historyIndex s -> synced s).

(** Calls other than [undo] and [importData]. *)
Definition keeps_counter (c : Call) : bool :=
  match c with
  | CUndo | CImportData _ _ => false
  | _ => true
  end.

(** The cursor is on the last entry of the history. *)
Definition at_end (s : Store) : Prop :=
  historyIndex s = Z.of_nat (length (history s)) - 1.

(** Subscribers none of which ever throws. *)
Definition quiet (s : Store) : Prop :=
  Forall (fun cb => forall a p, cb_throws cb a p = false) (subscribers s).

(** The set [calculateCriticalPath] computes from the task list. *)
Definition critical_of (s : Store) : JsSet :=
  fold_left (mark_deps s) (data s) (fold_left mark_high (data s) []).


(** *** Concrete stores and inputs *)

(** The clock at midnight, 1 January 2026 (UTC). *)
Definition sample_clock : Clock :=
  mkClock 1767225600000 "2026-01-01T00:00" "2026-01-01T01:00".

(** The argument [{ progress: p }] of [add]. *)
Definition progress_input (p : Z) : TaskInput :=
  mkInput None None None None (Some p) None None None None None.

(** The patch [{ progress: p }]. *)
Definition progress_patch (p : Z) : Patch :=
  mkPatch None None None None None (Some p) None None None None None.

(** The argument [{}] of [add]. *)
Definition blank_input : TaskInput :=
  mkInput None None None None None None None None None None.

(** A subscriber that throws on every call, and one that never does. *)
Definition throwing_subscriber : Subscriber := mkSubscriber 1 (fun _ _ => true).

Definition silent_subscriber : Subscriber := mkSubscriber 2 (fun _ _ => false).

(** The four calls of [addDemoData] (js/app.js), up to the dates. *)
Definition demo_calls : list Call :=
  [ CAdd sample_clock
      (mkInput (Some "Транспорт") (Some "Доставка оборудования") None None
               (Some 100) (Some "high") None (Some "Иванов") None None);
    CAdd sample_clock
      (mkInput (Some "Монтаж") (Some "Установка сцены") None None
               (Some 60) (Some "medium") None (Some "Петров")
               (Some [DStr "1"]) None);
    CAdd sample_clock
      (mkInput (Some "Репетиция") (Some "Техническая репетиция") None None
               (Some 20) (Some "high") None (Some "Сидоров")
               (Some [DStr "2"]) None);
    CAdd sample_clock
      (mkInput (Some "Веха") (Some "Начало мероприятия") None None
               (Some 0) (Some "high") (Some true) None None None) ].

(** A session of fifty [add] calls: the history is full. *)
Definition full_store : Store :=
  run (repeat (CAdd sample_clock blank_input) 50) (newStore None None).

(** Two tasks added. *)
Definition two_tasks : Store :=
  run [CAdd sample_clock blank_input; CAdd sample_clock blank_input]
      (newStore None None).

(** Calls that [saveState] is not part of: changes to the type registry,
    the critical marks, the project name and the subscriber list. *)
Definition unrecorded (c : Call) : bool :=
  match c with
  | CAddType _ _ | CUpdateType _ _ _ | CDeleteType _
  | CCalculateCriticalPath | CToggleCritical _ | CSetProjectName _
  | CSubscribe _ | CUnsubscribe _ => true
  | _ => false
  end.

(** A newly constructed store on which the callbacks [subs] were
    subscribed. *)
Definition fresh_store (savedTypes : option (gmap string string))
    (savedName : option string) (subs : list Subscriber) : Store :=
  run (map CSubscribe subs) (newStore savedTypes savedName).

(** The store after [addDemoData]. *)
Definition demo_store : Store := run demo_calls (newStore None None).

(** A new store with one subscriber that never throws. *)
Definition watched_store : Store := fresh_store None None [silent_subscriber].

(** The first task of [two_tasks]. *)
Definition first_task : Task :=
  new_task sample_clock blank_input (newStore None None).

(** A row of the table with 250 typed into the progress field. *)
Definition sample_row : RowInputs :=
  mkRow "Монтаж" "Установка сцены" "2026-01-01T10:00" "2026-01-01T12:00"
        "250" "high" "Петров".

(** ** Basic facts *)

Lemma clone_task_id (t : Task) : clone_task t = t.
Proof.
  destruct t as [i ty ta st en pr pri mi ow deps co]; unfold clone_task; simpl.
  f_equal. induction deps as [|d deps IH]; simpl; [reflexivity|].
  rewrite IH. destruct d; reflexivity.
Qed.

Lemma json_clone_id (l : list Task) : json_clone l = l.
Proof.
  unfold json_clone. induction l as [|t l IH]; simpl; [reflexivity|].
  now rewrite clone_task_id, IH.
Qed.

Lemma result_eta {A} (r : Result A) :
  mkResult (res_store r) (res_trace r) (res_val r) = r.
Proof. now destruct r. Qed.

Lemma notify_store (a : string) (p : option Task) (s : Store) :
  res_store (notify a p s) = s.
Proof. unfold notify. now destruct (forEach_call _ _ _). Qed.

Lemma forEach_call_val (cbs : list Subscriber) (a : string) (p : option Task) :
  (forEach_call cbs a p).2 = Normal tt \/
  exists cb, cb ∈ cbs /\ (forEach_call cbs a p).2 = Throw (SubscriberError (cb_id cb)).
Proof.
  induction cbs as [|cb cbs IH]; simpl; [now left|].
  destruct (cb_throws cb a p); simpl.
  - right. exists cb. split; [constructor | reflexivity].
  - destruct (forEach_call cbs a p) as [tr c]; simpl in *.
    destruct IH as [IH | (cb' & Hin & IH)]; [now left|].
    right. exists cb'. split; [now constructor | exact IH].
Qed.

Lemma notify_val (a : string) (p : option Task) (s : Store) :
  res_val (notify a p s) = Normal tt \/
  exists cb, cb ∈ subscribers s /\
             res_val (notify a p s) = Throw (SubscriberError (cb_id cb)).
Proof.
  unfold notify. pose proof (forEach_call_val (subscribers s) a p) as H.
  destruct (forEach_call _ _ _) as [tr c]; simpl in *. exact H.
Qed.

Lemma notifier_notify (a : string) (p : option Task) : notifier (notify a p).
Proof.
  intros s. split; [apply notify_store|].
  intros e He. destruct (notify_val a p s) as [H | (cb & Hin & H)];
    rewrite H in He; [discriminate|].
  injection He as <-. now exists cb.
Qed.

Lemma notifier_ret {A} (a : A) : notifier (ret a).
Proof. intros s. split; [reflexivity | discriminate]. Qed.

Lemma notifier_bind {A B} (m : M A) (f : A -> M B) :
  notifier m -> (forall a, notifier (f a)) -> notifier (bind m f).
Proof.
  intros Hm Hf s. destruct (Hm s) as [Hs He]. unfold bind.
  destruct (res_val (m s)) as [a|e] eqn:Hv; simpl.
  - destruct (Hf a (res_store (m s))) as [Hs' He']. rewrite Hs in *.
    split; [exact Hs' | exact He'].
  - split; [exact Hs|]. intros e' [= <-]. now apply He.
Qed.

Lemma bind_store_notifier {A B} (m : M A) (f : A -> M B) (s : Store) :
  (forall a, notifier (f a)) -> res_store (bind m f s) = res_store (m s).
Proof.
  intros Hf. unfold bind. destruct (res_val (m s)) as [a|e]; simpl; [|reflexivity].
  apply Hf.
Qed.

Lemma saveState_eq (clk : Clock) (d : string) (s : Store) :
  saveState clk d s = notify "history-change" None (saved clk d s).
Proof.
  unfold saveState, saved, kept, live, bind, get, modify, ret. simpl.
  rewrite json_clone_id.
  destruct (historyIndex s <? Z.of_nat (length (history s)) - 1); simpl;
    match goal with |- context [if ?c then _ else _] => destruct c end; simpl;
    apply result_eta.
Qed.

Lemma saveState_store (clk : Clock) (d : string) (s : Store) :
  res_store (saveState clk d s) = saved clk d s.
Proof. rewrite saveState_eq. apply notify_store. Qed.

Lemma bind_get {A} (f : Store -> M A) (s : Store) : bind get f s = f s s.
Proof. unfold bind, get; simpl. apply result_eta. Qed.

Lemma bind_modify {A} (g : Store -> Store) (f : unit -> M A) (s : Store) :
  bind (modify g) f s = f tt (g s).
Proof. unfold bind, modify; simpl. apply result_eta. Qed.

Lemma bind_ret {A B} (a : A) (f : A -> M B) (s : Store) :
  bind (ret a) f s = f a s.
Proof. unfold bind, ret; simpl. apply result_eta. Qed.

Lemma bind_assoc {A B C} (m : M A) (f : A -> M B) (g : B -> M C) (s : Store) :
  bind (bind m f) g s = bind m (fun x => bind (f x) g) s.
Proof.
  unfold bind. destruct (res_val (m s)) as [a|e]; simpl; [|reflexivity].
  destruct (res_val (f a (res_store (m s)))) as [b|e]; simpl; [|reflexivity].
  now rewrite app_assoc.
Qed.

Lemma bind_saveState {A} (clk : Clock) (d : string) (f : unit -> M A) (s : Store) :
  bind (saveState clk d) f s =
  bind (notify "history-change" None) f (saved clk d s).
Proof. unfold bind. now rewrite saveState_eq. Qed.

Lemma notifier_announce {A} (a : string) (p : option Task) (v : A) :
  notifier (announce a p v).
Proof.
  unfold announce. apply notifier_bind; [apply notifier_notify|]. intros _.
  apply notifier_bind; [apply notifier_notify|]. intros _. apply notifier_ret.
Qed.

Lemma add_eq (clk : Clock) (task : TaskInput) (s : Store) :
  add clk task s =
  announce "add" (Some (new_task clk task s)) (new_task clk task s)
    (saved clk "Добавление работы" (pushed clk task s)).
Proof.
  unfold add. rewrite bind_get, bind_modify. cbv zeta.
  rewrite bind_modify, bind_saveState. reflexivity.
Qed.

Lemma add_store (clk : Clock) (task : TaskInput) (s : Store) :
  res_store (add clk task s) =
  saved clk "Добавление работы" (pushed clk task s).
Proof. rewrite add_eq. apply notifier_announce. Qed.

Lemma update_eq (clk : Clock) (id : Z) (fields : Patch) (s : Store) (task : Task) :
  getById id s = Some task ->
  update clk id fields s =
  announce "update" (Some (patched (types s) task fields))
    (Some (patched (types s) task fields))
    (saved clk "Обновление работы"
       (set_data (replace_first id (patched (types s) task fields) (data s)) s)).
Proof.
  intros H. unfold update. rewrite bind_get, H. cbv zeta.
  rewrite bind_modify, bind_saveState. reflexivity.
Qed.

Lemma update_none (clk : Clock) (id : Z) (fields : Patch) (s : Store) :
  getById id s = None -> update clk id fields s = ret None s.
Proof. intros H. unfold update. now rewrite bind_get, H. Qed.

Lemma delete_eq (clk : Clock) (id : Z) (s : Store) (index : nat) :
  findIndex id (data s) = Some index ->
  delete clk id s =
  announce "delete" (data s !! index) (data s !! index)
    (saved clk "Удаление работы"
       (set_criticalTasks (set_delete id (criticalTasks s))
          (set_data (splice1 index (data s)) s))).
Proof.
  intros H. unfold delete. rewrite bind_get, H. cbv zeta.
  rewrite bind_modify, bind_modify, bind_saveState. reflexivity.
Qed.

Lemma delete_none (clk : Clock) (id : Z) (s : Store) :
  findIndex id (data s) = None -> delete clk id s = ret None s.
Proof. intros H. unfold delete. now rewrite bind_get, H. Qed.

Lemma restoreState_run (state : Snapshot) (s : Store) :
  restoreState state s = mkResult (restored state s) [] (Normal tt).
Proof.
  unfold restoreState. rewrite !bind_modify. unfold modify, restored.
  now rewrite json_clone_id.
Qed.

Lemma restoreState_eq {A} (state : Snapshot) (f : unit -> M A) (s : Store) :
  bind (restoreState state) f s = f tt (restored state s).
Proof.
  unfold bind. rewrite restoreState_run. simpl. apply result_eta.
Qed.

Lemma undo_false (s : Store) :
  (historyIndex s >? 0) = false -> undo s = ret false s.
Proof. intros H. unfold undo. now rewrite bind_get, H. Qed.

Lemma undo_eq (s : Store) (e : HistoryEntry) :
  (historyIndex s >? 0) = true ->
  at_index (history s) (historyIndex s - 1) = Some e ->
  undo s =
  (exec notify "undo" None in ret true)
    (restored (h_state e) (set_historyIndex (historyIndex s - 1) s)).
Proof.
  intros H He. unfold undo. rewrite bind_get, H, bind_modify.
  unfold restore_at_cursor. unfold bind at 1. rewrite bind_get. simpl.
  rewrite He. fold (bind (restoreState (h_state e))
    (fun _ => exec notify "undo" None in ret true)
    (set_historyIndex (historyIndex s - 1) s)).
  now rewrite restoreState_eq.
Qed.

Lemma redo_false (s : Store) :
  canRedo s = false -> redo s = ret false s.
Proof. unfold canRedo. intros H. unfold redo. now rewrite bind_get, H. Qed.

Lemma redo_eq (s : Store) (e : HistoryEntry) :
  canRedo s = true ->
  at_index (history s) (historyIndex s + 1) = Some e ->
  redo s =
  (exec notify "redo" None in ret true)
    (restored (h_state e) (set_historyIndex (historyIndex s + 1) s)).
Proof.
  unfold canRedo. intros H He. unfold redo. rewrite bind_get, H, bind_modify.
  unfold restore_at_cursor. unfold bind at 1. rewrite bind_get. simpl.
  rewrite He. fold (bind (restoreState (h_state e))
    (fun _ => exec notify "redo" None in ret true)
    (set_historyIndex (historyIndex s + 1) s)).
  now rewrite restoreState_eq.
Qed.

Lemma notifier_then_ret {A} (a : string) (p : option Task) (v : A) :
  notifier (exec notify a p in ret v).
Proof.
  apply notifier_bind; [apply notifier_notify|]. intros _. apply notifier_ret.
Qed.

Lemma undo_store (s : Store) :
  res_store (undo s) =
  if historyIndex s >? 0 then moved_to (historyIndex s - 1) s else s.
Proof.
  destruct (historyIndex s >? 0) eqn:H.
  - unfold moved_to.
    destruct (at_index (history s) (historyIndex s - 1)) as [e|] eqn:He.
    + rewrite (undo_eq s e H He). apply notifier_then_ret.
    + unfold undo. rewrite bind_get, H, bind_modify.
      unfold restore_at_cursor. unfold bind at 1. rewrite bind_get. simpl.
      now rewrite He.
  - now rewrite undo_false.
Qed.

Lemma redo_store (s : Store) :
  res_store (redo s) =
  if canRedo s then moved_to (historyIndex s + 1) s else s.
Proof.
  destruct (canRedo s) eqn:H.
  - unfold moved_to.
    destruct (at_index (history s) (historyIndex s + 1)) as [e|] eqn:He.
    + rewrite (redo_eq s e H He). apply notifier_then_ret.
    + unfold canRedo in H. unfold redo. rewrite bind_get, H, bind_modify.
      unfold restore_at_cursor. unfold bind at 1. rewrite bind_get. simpl.
      now rewrite He.
  - now rewrite redo_false.
Qed.

Lemma import_body_eq (clk : Clock) (v : ImportValue) (s : Store) :
  try_catch
    (call imported <- ret v in
     exec match truthy_str (imp_projectName imported) with
          | Some name => modify (set_projectName name)
          | None => ret tt
          end in
     exec match imp_types imported with
          | Some tys => modify (set_types (tys ∪ DEFAULT_TYPES))
          | None => ret tt
          end in
     exec match imp_data imported with
          | Some tasks =>
              exec modify (set_data tasks) in
              modify (fun s =>
                set_nextId (max_with_zero (map t_id (data s)) + 1) s)
          | None => ret tt
          end in
     exec modify (set_history []) in
     exec modify (set_historyIndex (-1)) in
     exec saveState clk "Импорт данных" in
     exec notify "import" None in
     ret true)
    (fun _ => ret false) s =
  try_catch (announce "import" None true) (fun _ => ret false)
    (saved clk "Импорт данных" (imported_store v s)).
Proof.
  unfold try_catch. rewrite bind_ret.
  unfold imported_store, import_filled, import_typed, import_named.
  assert (E : forall (o : option (Store -> Store)) (f : unit -> M bool) s0,
    bind match o with Some g => modify g | None => ret tt end f s0 =
    f tt (match o with Some g => g s0 | None => s0 end)).
  { intros [g|] f s0; [apply bind_modify | apply bind_ret]. }
  pose proof (E (option_map set_projectName (truthy_str (imp_projectName v)))) as E1.
  destruct (truthy_str (imp_projectName v)); simpl in E1; rewrite E1; clear E1;
  pose proof (E (option_map (fun tys => set_types (tys ∪ DEFAULT_TYPES)) (imp_types v))) as E2;
  destruct (imp_types v); simpl in E2; rewrite E2; clear E2;
  destruct (imp_data v) as [tasks|];
  try rewrite bind_assoc; try rewrite bind_ret;
  rewrite !bind_modify, bind_saveState; reflexivity.
Qed.

Lemma importData_value (clk : Clock) (v : ImportValue) (s : Store) :
  importData clk (Value v) s =
  try_catch (announce "import" None true) (fun _ => ret false)
    (saved clk "Импорт данных" (imported_store v s)).
Proof. exact (import_body_eq clk v s). Qed.

Lemma try_catch_notifier {A} (m : M A) (v : A) (s : Store) :
  notifier m -> res_store (try_catch m (fun _ => ret v) s) = s.
Proof.
  intros Hm. unfold try_catch. destruct (res_val (m s)); simpl; apply Hm.
Qed.

Lemma importData_store (clk : Clock) (json : ImportArg) (s : Store) :
  res_store (importData clk json s) =
  match json with
  | Value v => saved clk "Импорт данных" (imported_store v s)
  | _ => s
  end.
Proof.
  destruct json as [| |v]; [reflexivity | reflexivity |].
  rewrite importData_value. apply try_catch_notifier, notifier_announce.
Qed.

Lemma importData_true (clk : Clock) (json : ImportArg) (s : Store) :
  res_val (importData clk json s) = Normal true -> exists v, json = Value v.
Proof.
  destruct json as [| |v]; [discriminate | discriminate | now exists v].
Qed.

(** *** The history after [saveState] *)

Lemma at_index_snoc {A} (l : list A) (x : A) (i : Z) :
  i = Z.of_nat (length l) -> at_index (l ++ [x]) i = Some x.
Proof.
  intros ->. unfold at_index.
  destruct (Z.ltb_spec (Z.of_nat (length l)) 0); [lia|].
  rewrite Nat2Z.id. apply list_lookup_middle. reflexivity.
Qed.

Lemma at_index_shift {A} (l : list A) (i : Z) :
  0 <= i -> at_index (shift l) i = at_index l (i + 1).
Proof.
  intros Hi. unfold at_index, shift.
  destruct (Z.ltb_spec i 0); [lia|]. destruct (Z.ltb_spec (i + 1) 0); [lia|].
  rewrite lookup_tail. f_equal. lia.
Qed.

Lemma length_shift {A} (l : list A) :
  Z.of_nat (length (shift l)) = Z.max 0 (Z.of_nat (length l) - 1).
Proof. destruct l; simpl; lia. Qed.

Lemma kept_take (s : Store) :
  -1 <= historyIndex s < Z.of_nat (length (history s)) ->
  kept s = take (Z.to_nat (historyIndex s + 1)) (history s) /\
  Z.of_nat (length (kept s)) = historyIndex s + 1.
Proof.
  intros H. unfold kept, slice0.
  destruct (Z.ltb_spec (historyIndex s) (Z.of_nat (length (history s)) - 1)).
  - destruct (Z.ltb_spec (historyIndex s + 1) 0); [lia|].
    rewrite Z.min_l by lia. split; [reflexivity|].
    rewrite length_take. lia.
  - assert (Hi : historyIndex s + 1 = Z.of_nat (length (history s))) by lia.
    rewrite Hi, Nat2Z.id, firstn_all. split; [reflexivity | lia].
Qed.

(** [saveState] on a store that satisfies the history invariant: the new
    entry is the last one, the cursor is on it, the entries before it are
    the entries up to the old cursor (less the first one when the history was
    full), and nothing but the history and its cursor changes. *)
Lemma saved_spec (clk : Clock) (d : string) (s : Store) :
  hist_ok s ->
  let s' := saved clk d s in
  let e := mkEntry (live s) d (clock_now clk) in
  hist_ok s' /\
  historyIndex s' = Z.of_nat (length (history s')) - 1 /\
  at_index (history s') (historyIndex s') = Some e /\
  (history s' = take (Z.to_nat (historyIndex s + 1)) (history s) ++ [e] \/
   history s' = shift (take (Z.to_nat (historyIndex s + 1)) (history s) ++ [e])) /\
  live s' = live s /\
  types s' = types s /\ projectName s' = projectName s /\
  subscribers s' = subscribers s.
Proof.
  intros (Hi & Hlen & Hmax). simpl.
  destruct (kept_take s Hi) as [Hk Hkl].
  unfold saved, hist_ok. rewrite <- Hk.
  assert (Hl : Z.of_nat (length (kept s ++ [mkEntry (live s) d (clock_now clk)]))
               = historyIndex s + 2).
  { rewrite length_app; simpl. lia. }
  rewrite Z.gtb_ltb.
  destruct (Z.ltb_spec (maxHistory s)
    (Z.of_nat (length (kept s ++ [mkEntry (live s) d (clock_now clk)])))); simpl.
  - rewrite length_shift, Hl.
    rewrite at_index_shift by lia.
    rewrite at_index_snoc by lia.
    repeat split; try lia; auto.
  - rewrite Hl. rewrite at_index_snoc by lia.
    repeat split; try lia; auto.
Qed.

Lemma saved_synced (clk : Clock) (d : string) (s : Store) :
  hist_ok s -> synced (saved clk d s).
Proof.
  intros H. destruct (saved_spec clk d s H) as (_ & _ & He & _ & Hl & _).
  eexists. split; [exact He|]. simpl. now rewrite Hl.
Qed.

(** *** The history invariant holds in every reachable state *)

Lemma hist_ok_frame (s s' : Store) :
  history s' = history s -> historyIndex s' = historyIndex s ->
  maxHistory s' = maxHistory s -> hist_ok s -> hist_ok s'.
Proof. unfold hist_ok. intros -> -> ->. auto. Qed.

Lemma moved_to_history (i : Z) (s : Store) :
  history (moved_to i s) = history s /\ historyIndex (moved_to i s) = i /\
  maxHistory (moved_to i s) = maxHistory s.
Proof. unfold moved_to. destruct (at_index _ _); simpl; auto. Qed.

Lemma imported_store_hist (v : ImportValue) (s : Store) :
  history (imported_store v s) = [] /\ historyIndex (imported_store v s) = -1 /\
  maxHistory (imported_store v s) = maxHistory s.
Proof.
  unfold imported_store, import_filled, import_typed, import_named.
  destruct (truthy_str _), (imp_types v), (imp_data v); simpl; auto.
Qed.

Lemma modify_notify_store (g : Store -> Store) (a : string) (p : option Task) (s : Store) :
  res_store ((exec modify g in notify a p) s) = g s.
Proof. rewrite bind_modify. apply notify_store. Qed.

Lemma duplicate_store (clk : Clock) (id : Z) (s : Store) :
  res_store (duplicate clk id s) =
  match getById id s with
  | Some task => res_store (add clk (copy_input task) s)
  | None => s
  end.
Proof.
  unfold duplicate. rewrite bind_get. destruct (getById id s); [|reflexivity].
  apply bind_store_notifier. intros a. apply notifier_ret.
Qed.

(** [saveState] on a store that has the history of a store satisfying [H]. *)
Ltac saved_ok H := apply saved_spec; revert H; now apply hist_ok_frame.

Lemma step_hist_ok (c : Call) (s : Store) : hist_ok s -> hist_ok (step c s).
Proof.
  intros H. destruct c; cbn [step].
  - rewrite add_store. saved_ok H.
  - destruct (getById id s) as [t|] eqn:E.
    + rewrite (update_eq _ _ _ _ _ E).
      destruct (notifier_announce "update" (Some (patched (types s) t fields))
        (Some (patched (types s) t fields))
        (saved clk "Обновление работы"
          (set_data (replace_first id (patched (types s) t fields) (data s)) s)))
        as [-> _].
      saved_ok H.
    + now rewrite update_none.
  - destruct (findIndex id (data s)) as [i|] eqn:E.
    + rewrite (delete_eq _ _ _ _ E).
      destruct (notifier_announce "delete" (data s !! i) (data s !! i)
        (saved clk "Удаление работы"
          (set_criticalTasks (set_delete id (criticalTasks s))
             (set_data (splice1 i (data s)) s)))) as [-> _].
      saved_ok H.
    + now rewrite delete_none.
  - rewrite duplicate_store. destruct (getById id s); [|exact H].
    rewrite add_store. saved_ok H.
  - rewrite saveState_store. now apply saved_spec.
  - rewrite undo_store. rewrite Z.gtb_ltb.
    destruct (Z.ltb_spec 0 (historyIndex s)); [|exact H].
    destruct (moved_to_history (historyIndex s - 1) s) as (Hh & Hi & Hm).
    destruct H as (H1 & H2 & H3). unfold hist_ok. rewrite Hh, Hi, Hm. lia.
  - rewrite redo_store. unfold canRedo.
    destruct (Z.ltb_spec (historyIndex s) (Z.of_nat (length (history s)) - 1));
      [|exact H].
    destruct (moved_to_history (historyIndex s + 1) s) as (Hh & Hi & Hm).
    destruct H as (H1 & H2 & H3). unfold hist_ok. rewrite Hh, Hi, Hm. lia.
  - unfold addType. rewrite modify_notify_store. exact H.
  - unfold updateType.
    destruct (decide (oldName = newName)).
    + rewrite bind_ret, modify_notify_store. exact H.
    + rewrite bind_assoc, bind_modify, bind_modify, modify_notify_store. exact H.
  - unfold deleteType. rewrite modify_notify_store. exact H.
  - unfold calculateCriticalPath. rewrite !bind_modify, bind_get. exact H.
  - unfold toggleCritical, modify; simpl.
    destruct (set_has id (criticalTasks s)); exact H.
  - unfold setProjectName. rewrite modify_notify_store. exact H.
  - exact H.
  - exact H.
  - rewrite importData_store. destruct json as [| |v]; [exact H | exact H |].
    apply saved_spec.
    destruct (imported_store_hist v s) as (Hh & Hi & Hm).
    destruct H as (H1 & H2 & H3). unfold hist_ok. rewrite Hh, Hi, Hm. simpl. lia.
Qed.

Lemma run_snoc (cs : list Call) (c : Call) (s : Store) :
  run (cs ++ [c]) s = step c (run cs s).
Proof. unfold run. now rewrite fold_left_app. Qed.

Lemma reachable_step (c : Call) (s : Store) :
  reachable s -> reachable (step c s).
Proof.
  intros (ty & pn & cs & ->). exists ty, pn, (cs ++ [c]). now rewrite run_snoc.
Qed.

Lemma reachable_new (savedTypes : option (gmap string string))
    (savedName : option string) : reachable (newStore savedTypes savedName).
Proof. now exists savedTypes, savedName, []. Qed.

Lemma reachable_hist_ok (s : Store) : reachable s -> hist_ok s.
Proof.
  intros (ty & pn & cs & ->).
  induction cs as [|c cs IH] using rev_ind.
  - unfold hist_ok; simpl. lia.
  - rewrite run_snoc. now apply step_hist_ok.
Qed.

Lemma saved_cursor (clk : Clock) (d : string) (s : Store) :
  hist_ok s ->
  cursor_entry (saved clk d s) =
  Some (mkEntry (live (saved clk d s)) d (clock_now clk)).
Proof.
  intros H. destruct (saved_spec clk d s H) as (_ & _ & He & _ & Hl & _).
  unfold cursor_entry. simpl in Hl. now rewrite Hl.
Qed.

Lemma update_store (clk : Clock) (id : Z) (fields : Patch) (s : Store) (task : Task) :
  getById id s = Some task ->
  res_store (update clk id fields s) =
  saved clk "Обновление работы"
    (set_data (replace_first id (patched (types s) task fields) (data s)) s).
Proof. intros H. rewrite (update_eq _ _ _ _ _ H). apply notifier_announce. Qed.

Lemma delete_store (clk : Clock) (id : Z) (s : Store) (index : nat) :
  findIndex id (data s) = Some index ->
  res_store (delete clk id s) =
  saved clk "Удаление работы"
    (set_criticalTasks (set_delete id (criticalTasks s))
       (set_data (splice1 index (data s)) s)).
Proof. intros H. rewrite (delete_eq _ _ _ _ H). apply notifier_announce. Qed.

(** A mutating call ends in [saveState] on a store whose history is the one
    the call started with. *)
Lemma mutates_saved (c : Call) (s : Store) :
  mutates c s = true ->
  exists clk d s0, step c s = saved clk d s0 /\
    history s0 = history s /\ historyIndex s0 = historyIndex s /\
    maxHistory s0 = maxHistory s.
Proof.
  destruct c; cbn [mutates step]; try discriminate; intros H.
  - eexists _, _, _. split; [apply add_store|]. now simpl.
  - destruct (getById id s) as [t|] eqn:E; [|discriminate].
    eexists _, _, _. split; [apply (update_store _ _ _ _ _ E)|]. now simpl.
  - destruct (findIndex id (data s)) as [i|] eqn:E; [|discriminate].
    eexists _, _, _. split; [apply (delete_store _ _ _ _ E)|]. now simpl.
  - rewrite duplicate_store. destruct (getById id s) as [t|] eqn:E; [|discriminate].
    eexists _, _, _. split; [apply add_store|]. now simpl.
Qed.

(** ** C1: the cursor after [saveState] *)

(** C1.  In every reachable state, a call to [saveState] -- made directly or
    by [add], by an [update] or [delete] that finds its task, or by
    [importData] on a value -- leaves the cursor on the entry it has just
    written, and the state stored in that entry is the live state (task
    list, [nextId], critical set).  This includes the call made when the
    history already holds [maxHistory] entries. *)
Theorem saveState_cursor_on_written_snapshot (s : Store) :
  reachable s ->
  (forall clk d,
     let s' := res_store (saveState clk d s) in
     cursor_entry s' = Some (mkEntry (live s') d (clock_now clk))) /\
  (forall clk task,
     let s' := res_store (add clk task s) in
     cursor_entry s' =
     Some (mkEntry (live s') "Добавление работы" (clock_now clk))) /\
  (forall clk id fields,
     getById id s <> None ->
     let s' := res_store (update clk id fields s) in
     cursor_entry s' =
     Some (mkEntry (live s') "Обновление работы" (clock_now clk))) /\
  (forall clk id,
     findIndex id (data s) <> None ->
     let s' := res_store (delete clk id s) in
     cursor_entry s' =
     Some (mkEntry (live s') "Удаление работы" (clock_now clk))) /\
  (forall clk v,
     let s' := res_store (importData clk (Value v) s) in
     cursor_entry s' =
     Some (mkEntry (live s') "Импорт данных" (clock_now clk))).
Proof.
  intros Hr. pose proof (reachable_hist_ok s Hr) as H.
  repeat split.
  - intros clk d. cbv zeta. rewrite saveState_store. now apply saved_cursor.
  - intros clk task. cbv zeta. rewrite add_store. apply saved_cursor.
    revert H. now apply hist_ok_frame.
  - intros clk id fields Hf. cbv zeta.
    destruct (getById id s) as [t|] eqn:E; [|congruence].
    rewrite (update_store _ _ _ _ _ E). apply saved_cursor.
    revert H. now apply hist_ok_frame.
  - intros clk id Hf. cbv zeta.
    destruct (findIndex id (data s)) as [i|] eqn:E; [|congruence].
    rewrite (delete_store _ _ _ _ E). apply saved_cursor.
    revert H. now apply hist_ok_frame.
  - intros clk v. cbv zeta. rewrite importData_store. apply saved_cursor.
    destruct (imported_store_hist v s) as (Hh & Hi & Hm).
    destruct H as (H1 & H2 & H3). unfold hist_ok. rewrite Hh, Hi, Hm. simpl. lia.
Qed.

(** ** C2: undo followed by redo *)

Lemma set_add_fold_app (acc xs : list Z) :
  NoDup (acc ++ xs) ->
  fold_left (fun s x => set_add x s) xs acc = acc ++ xs.
Proof.
  revert acc. induction xs as [|x xs IH]; intros acc H; simpl.
  - now rewrite app_nil_r.
  - assert (Hx : x ∉ acc).
    { apply NoDup_app in H as (_ & H & _). intros Hin.
      apply (H x Hin). now left. }
    unfold set_add at 2, set_has. rewrite bool_decide_eq_false_2 by exact Hx.
    rewrite IH; rewrite <- app_assoc; [reflexivity | exact H].
Qed.

Lemma set_of_array_nodup (xs : list Z) : NoDup xs -> set_of_array xs = xs.
Proof. intros H. unfold set_of_array. now rewrite set_add_fold_app. Qed.

Lemma set_delete_nodup (x : Z) (c : JsSet) : NoDup c -> NoDup (set_delete x c).
Proof. intros H. unfold set_delete. now apply NoDup_filter. Qed.

Lemma at_index_some {A} (l : list A) (i : Z) :
  0 <= i < Z.of_nat (length l) -> exists x, at_index l i = Some x.
Proof.
  intros H. unfold at_index. destruct (Z.ltb_spec i 0); [lia|].
  apply lookup_lt_is_Some_2. lia.
Qed.

(** On a store whose cursor is on a snapshot of the live state, an [undo]
    that moves followed by [redo] gives back the very same store. *)
Lemma undo_redo_roundtrip (s : Store) :
  hist_ok s -> synced s -> NoDup (criticalTasks s) -> 0 < historyIndex s ->
  res_store (redo (res_store (undo s))) = s /\
  res_val (redo (res_store (undo s))) <> Normal false.
Proof.
  intros (Hi & Hlen & Hmax) (e & He & Hst) Hnd Hpos.
  rewrite undo_store. rewrite Z.gtb_ltb.
  destruct (Z.ltb_spec 0 (historyIndex s)); [|lia].
  destruct (at_index_some (history s) (historyIndex s - 1)) as [e' He']; [lia|].
  unfold moved_to at 1 2. rewrite He'.
  set (s1 := restored (h_state e') (set_historyIndex (historyIndex s - 1) s)).
  assert (Hc : canRedo s1 = true).
  { unfold canRedo, s1; simpl. apply Z.ltb_lt. lia. }
  assert (He1 : at_index (history s1) (historyIndex s1 + 1) = Some e).
  { unfold s1; simpl. rewrite Z.sub_add. exact He. }
  rewrite (redo_eq s1 e Hc He1).
  split.
  - destruct (notifier_then_ret "redo" None true
      (restored (h_state e) (set_historyIndex (historyIndex s1 + 1) s1))) as [-> _].
    rewrite Hst. unfold restored, s1, live; simpl.
    rewrite Z.sub_add. unfold array_from. rewrite set_of_array_nodup by exact Hnd.
    now destruct s.
  - unfold bind. intros Hf.
    destruct (res_val (notify "redo" None
      (restored (h_state e) (set_historyIndex (historyIndex s1 + 1) s1))));
      simpl in Hf; discriminate.
Qed.

Lemma edit_inv_saved (clk : Clock) (d : string) (s : Store) :
  hist_ok s -> NoDup (criticalTasks s) -> edit_inv (saved clk d s).
Proof.
  intros H Hnd. destruct (saved_spec clk d s H) as (Hok & _ & _ & _ & Hl & _).
  split; [exact Hok|]. split.
  - simpl in Hl. injection Hl as _ _ Hc. unfold array_from in Hc. now rewrite Hc.
  - intros _. now apply saved_synced.
Qed.

Lemma edit_inv_step (e : Edit) (s : Store) :
  edit_inv s -> edit_inv (step (call_of e) s).
Proof.
  intros (H & Hnd & Hs). destruct e; cbn [call_of step].
  - rewrite add_store. apply edit_inv_saved; [|exact Hnd].
    revert H. now apply hist_ok_frame.
  - destruct (getById id s) as [t|] eqn:E.
    + rewrite (update_store _ _ _ _ _ E). apply edit_inv_saved; [|exact Hnd].
      revert H. now apply hist_ok_frame.
    + rewrite update_none by exact E. exact (conj H (conj Hnd Hs)).
  - destruct (findIndex id (data s)) as [i|] eqn:E.
    + rewrite (delete_store _ _ _ _ E). apply edit_inv_saved.
      * revert H. now apply hist_ok_frame.
      * simpl. now apply set_delete_nodup.
    + rewrite delete_none by exact E. exact (conj H (conj Hnd Hs)).
Qed.

Lemma edit_inv_run (es : list Edit) (s : Store) :
  edit_inv s -> edit_inv (run (map call_of es) s).
Proof.
  revert s. induction es as [|e es IH]; intros s H; [exact H|].
  simpl. apply IH. now apply edit_inv_step.
Qed.

Lemma edit_inv_subscribed (subs : list Subscriber) (s : Store) :
  edit_inv s -> edit_inv (run (map CSubscribe subs) s).
Proof.
  revert s. induction subs as [|cb subs IH]; intros s H; [exact H|].
  simpl. apply IH. exact H.
Qed.

Lemma edit_inv_new (savedTypes : option (gmap string string))
    (savedName : option string) : edit_inv (newStore savedTypes savedName).
Proof.
  split; [apply reachable_hist_ok, reachable_new|].
  split; [constructor|]. simpl. lia.
Qed.

(** C2.  Take a newly constructed store, any subscribers, and any sequence
    of [add], [update] and [delete] calls.  If [undo] then returns [true],
    an immediately following [redo] brings back the store as it was before
    the [undo]: the same task list, [nextId] and critical set (indeed the
    same store in every field), and that [redo] does not answer [false]. *)
Theorem undo_then_redo_restores
    (savedTypes : option (gmap string string)) (savedName : option string)
    (subs : list Subscriber) (es : list Edit) :
  let s := run (map call_of es)
             (run (map CSubscribe subs) (newStore savedTypes savedName)) in
  res_val (undo s) = Normal true ->
  let s2 := res_store (redo (res_store (undo s))) in
  live s2 = live s /\
  data s2 = data s /\ nextId s2 = nextId s /\
  criticalTasks s2 = criticalTasks s /\
  s2 = s /\
  res_val (redo (res_store (undo s))) <> Normal false.
Proof.
  intros s Hu s2.
  assert (Hinv : edit_inv s).
  { apply edit_inv_run, edit_inv_subscribed, edit_inv_new. }
  destruct Hinv as (H & Hnd & Hs).
  assert (Hpos : 0 < historyIndex s).
  { destruct (Z.ltb_spec 0 (historyIndex s)) as [Hlt|Hge]; [exact Hlt|].
    rewrite undo_false in Hu; [discriminate|].
    rewrite Z.gtb_ltb. apply Z.ltb_ge. exact Hge. }
  destruct (undo_redo_roundtrip s H (Hs ltac:(lia)) Hnd Hpos) as [E Hv].
  fold s2 in E. rewrite E. repeat split; auto.
Qed.

(** ** C3: a new edit prunes the redo branch *)

(** C3.  In every reachable state -- in particular after any number of
    undos -- a mutating call ([add], or an [update], [delete] or [duplicate]
    that finds its task) keeps of the old history only the entries up to the
    cursor (less the oldest one when the history was full), appends its
    snapshot and leaves the cursor on it; [canRedo] is then [false] and
    [redo] returns [false] without touching the store or notifying.  In
    particular [undo(); add(x); redo()] ends with [redo() = false]. *)
Theorem edit_after_undo_prunes_redo (s : Store) :
  reachable s ->
  (forall c, mutates c s = true ->
     let s' := step c s in
     (exists e,
        history s' = take (Z.to_nat (historyIndex s + 1)) (history s) ++ [e] \/
        history s' =
          shift (take (Z.to_nat (historyIndex s + 1)) (history s) ++ [e])) /\
     historyIndex s' = Z.of_nat (length (history s')) - 1 /\
     canRedo s' = false /\
     redo s' = mkResult s' [] (Normal false)) /\
  (forall clk x,
     res_val (redo (step (CAdd clk x) (step CUndo s))) = Normal false).
Proof.
  intros Hr.
  assert (G : forall s c, reachable s -> mutates c s = true ->
     (exists e,
        history (step c s) =
          take (Z.to_nat (historyIndex s + 1)) (history s) ++ [e] \/
        history (step c s) =
          shift (take (Z.to_nat (historyIndex s + 1)) (history s) ++ [e])) /\
     historyIndex (step c s) = Z.of_nat (length (history (step c s))) - 1 /\
     canRedo (step c s) = false /\
     redo (step c s) = mkResult (step c s) [] (Normal false)).
  { clear s Hr. intros s c Hr Hm.
    destruct (mutates_saved c s Hm) as (clk & d & s0 & -> & Hh & Hi & Hx).
    assert (H0 : hist_ok s0).
    { apply (hist_ok_frame s); auto. now apply reachable_hist_ok. }
    destruct (saved_spec clk d s0 H0) as (_ & Hc & _ & Hs & _).
    simpl in Hc, Hs. rewrite Hh, Hi in Hs.
    assert (Hcr : canRedo (saved clk d s0) = false).
    { unfold canRedo. rewrite Hc. apply Z.ltb_irrefl. }
    split; [eexists; exact Hs|]. split; [exact Hc|]. split; [exact Hcr|].
    now rewrite redo_false. }
  split.
  - intros c Hm. cbv zeta. now apply G.
  - intros clk x.
    destruct (G (step CUndo s) (CAdd clk x)) as (_ & _ & _ & ->);
      [now apply reachable_step | reflexivity | reflexivity].
Qed.

(** ** C4: the ids [add] hands out *)

Lemma saved_frame (clk : Clock) (d : string) (s : Store) :
  data (saved clk d s) = data s /\ nextId (saved clk d s) = nextId s /\
  criticalTasks (saved clk d s) = criticalTasks s.
Proof.
  unfold saved.
  destruct (Z.of_nat (length _) >? maxHistory s); simpl; auto.
Qed.

Lemma saved_at_end (clk : Clock) (d : string) (s : Store) :
  at_end s -> at_end (saved clk d s).
Proof.
  unfold at_end, saved, kept. intros H.
  destruct (Z.ltb_spec (historyIndex s) (Z.of_nat (length (history s)) - 1)); [lia|].
  rewrite Z.gtb_ltb.
  destruct (Z.ltb_spec (maxHistory s)
    (Z.of_nat (length (history s ++ [mkEntry (live s) d (clock_now clk)])))); simpl.
  - rewrite length_shift, length_app; simpl. lia.
  - rewrite length_app; simpl. lia.
Qed.

Lemma announce_val {A} (a : string) (p : option Task) (v x : A) (s : Store) :
  res_val (announce a p v s) = Normal x -> x = v.
Proof.
  unfold announce, bind.
  destruct (res_val (notify "history-change" None s)); simpl; [|discriminate].
  destruct (res_val (notify a p _)); simpl; [|discriminate].
  now intros [= <-].
Qed.

Lemma add_returns (clk : Clock) (task : TaskInput) (s : Store) (t : Task) :
  res_val (add clk task s) = Normal t -> t = new_task clk task s.
Proof. rewrite add_eq. apply announce_val. Qed.

Lemma add_counter (clk : Clock) (task : TaskInput) (s : Store) :
  at_end s ->
  at_end (res_store (add clk task s)) /\
  nextId (res_store (add clk task s)) = nextId s + 1.
Proof.
  intros H. rewrite add_store. split.
  - apply saved_at_end. exact H.
  - now destruct (saved_frame clk "Добавление работы" (pushed clk task s))
      as (_ & -> & _).
Qed.

(** A call that leaves the history and the counter as they are. *)
Ltac counter_unchanged H :=
  split; [exact H|]; split; [simpl; lia | discriminate].

Lemma step_counter (c : Call) (s : Store) :
  at_end s -> keeps_counter c = true ->
  at_end (step c s) /\
  nextId s <= nextId (step c s) /\
  forall i, returned_id c s = Some i -> nextId s <= i < nextId (step c s).
Proof.
  intros H Hk. destruct c; cbn [step returned_id]; try discriminate.
  - destruct (add_counter clk task s H) as [He Hn]. rewrite Hn.
    split; [exact He|]. split; [lia|]. intros i.
    destruct (res_val (add clk task s)) as [t|] eqn:E; [|discriminate].
    apply add_returns in E. subst t. intros [= <-]. simpl. lia.
  - destruct (getById id s) as [t|] eqn:E.
    + rewrite (update_store _ _ _ _ _ E).
      destruct (saved_frame clk "Обновление работы"
        (set_data (replace_first id (patched (types s) t fields) (data s)) s))
        as (_ & -> & _).
      split; [now apply saved_at_end|]. split; [simpl; lia | discriminate].
    + rewrite update_none by exact E. counter_unchanged H.
  - destruct (findIndex id (data s)) as [j|] eqn:E.
    + rewrite (delete_store _ _ _ _ E).
      destruct (saved_frame clk "Удаление работы"
        (set_criticalTasks (set_delete id (criticalTasks s))
           (set_data (splice1 j (data s)) s))) as (_ & -> & _).
      split; [now apply saved_at_end|]. split; [simpl; lia | discriminate].
    + rewrite delete_none by exact E. counter_unchanged H.
  - rewrite duplicate_store. unfold duplicate. rewrite bind_get.
    destruct (getById id s) as [t|] eqn:E.
    + destruct (add_counter clk (copy_input t) s H) as [He Hn]. rewrite Hn.
      split; [exact He|]. split; [lia|]. intros i. unfold bind.
      destruct (res_val (add clk (copy_input t) s)) as [t'|] eqn:E';
        simpl; [|discriminate].
      apply add_returns in E'. subst t'. intros [= <-]. simpl. lia.
    + counter_unchanged H.
  - rewrite saveState_store.
    destruct (saved_frame clk description s) as (_ & -> & _).
    split; [now apply saved_at_end|]. split; [lia | discriminate].
  - rewrite redo_store. unfold canRedo. rewrite H, Z.ltb_irrefl.
    counter_unchanged H.
  - unfold addType. rewrite modify_notify_store.
    counter_unchanged H.
  - unfold updateType. destruct (decide (oldName = newName)).
    + rewrite bind_ret, modify_notify_store.
      counter_unchanged H.
    + rewrite bind_assoc, bind_modify, bind_modify, modify_notify_store.
      counter_unchanged H.
  - unfold deleteType. rewrite modify_notify_store.
    counter_unchanged H.
  - unfold calculateCriticalPath. rewrite !bind_modify, bind_get.
    counter_unchanged H.
  - unfold toggleCritical, modify; simpl.
    destruct (set_has id (criticalTasks s));
      counter_unchanged H.
  - unfold setProjectName. rewrite modify_notify_store.
    counter_unchanged H.
  - counter_unchanged H.
  - counter_unchanged H.
Qed.

Lemma returned_ids_sorted (cs : list Call) (s : Store) :
  at_end s -> forallb keeps_counter cs = true ->
  StronglySorted Z.lt (returned_ids cs s) /\
  Forall (fun i => nextId s <= i) (returned_ids cs s).
Proof.
  revert s. induction cs as [|c cs IH]; intros s H Hk; simpl.
  - split; constructor.
  - simpl in Hk. apply andb_true_iff in Hk as [Hc Hk].
    destruct (step_counter c s H Hc) as (He & Hn & Hr).
    destruct (IH (step c s) He Hk) as [Hs Hf].
    destruct (returned_id c s) as [i|].
    + specialize (Hr i eq_refl). split.
      * constructor; [exact Hs|].
        eapply Forall_impl; [exact Hf|]. simpl. intros j Hj. lia.
      * constructor; [lia|].
        eapply Forall_impl; [exact Hf|]. simpl. intros j Hj. lia.
    + split; [exact Hs|].
      eapply Forall_impl; [exact Hf|]. simpl. intros j Hj. lia.
Qed.

(** C4, as stated, fails: [add(); add(); undo(); add()] hands out the ids
    1, 2 and 2 -- [undo] restores [nextId] from the snapshot, so the id of
    the undone task is given out again. *)
Lemma add_after_undo_reuses_id :
  returned_ids
    [CAdd sample_clock blank_input; CAdd sample_clock blank_input; CUndo;
     CAdd sample_clock blank_input] (newStore None None) = [1; 2; 2] /\
  ~ StronglySorted Z.lt
      (returned_ids
         [CAdd sample_clock blank_input; CAdd sample_clock blank_input; CUndo;
          CAdd sample_clock blank_input] (newStore None None)).
Proof.
  assert (E : returned_ids
    [CAdd sample_clock blank_input; CAdd sample_clock blank_input; CUndo;
     CAdd sample_clock blank_input] (newStore None None) = [1; 2; 2])
    by (vm_compute; reflexivity).
  split; [exact E|]. rewrite E. intros H.
  apply StronglySorted_inv in H as [H _].
  apply StronglySorted_inv in H as [_ H].
  apply Forall_inv in H. lia.
Qed.

(** C4, amended.  In a session that starts from a new store and calls
    neither [undo] nor [importData], every id handed out by [add] (or by
    [duplicate], which calls [add]) is strictly greater than every id handed
    out before it, whatever was deleted, updated or otherwise done in
    between; all ids are at least 1. *)
Theorem add_ids_increase_without_undo_or_import
    (savedTypes : option (gmap string string)) (savedName : option string)
    (cs : list Call) :
  forallb keeps_counter cs = true ->
  StronglySorted Z.lt (returned_ids cs (newStore savedTypes savedName)) /\
  Forall (fun i => 1 <= i) (returned_ids cs (newStore savedTypes savedName)).
Proof.
  intros Hk. apply (returned_ids_sorted cs (newStore savedTypes savedName));
    [reflexivity | exact Hk].
Qed.

(** ** C5: progress values outside [0,100] *)

Lemma announce_throws {A} (a : string) (p : option Task) (v : A) (s : Store) (e : Exn) :
  res_val (announce a p v s) = Throw e ->
  exists cb, cb ∈ subscribers s /\ e = SubscriberError (cb_id cb).
Proof. apply notifier_announce. Qed.

Lemma forEach_call_quiet (cbs : list Subscriber) (a : string) (p : option Task) :
  Forall (fun cb => cb_throws cb a p = false) cbs ->
  forEach_call cbs a p = (map (fun cb => Invoke (cb_id cb) a p) cbs, Normal tt).
Proof.
  induction 1 as [|cb cbs Hcb _ IH]; simpl; [reflexivity|].
  now rewrite Hcb, IH.
Qed.

Lemma forEach_call_throw (pre post : list Subscriber) (cb : Subscriber)
    (a : string) (p : option Task) :
  Forall (fun cb => cb_throws cb a p = false) pre ->
  cb_throws cb a p = true ->
  forEach_call (pre ++ cb :: post) a p =
  (map (fun cb => Invoke (cb_id cb) a p) (pre ++ [cb]),
   Throw (SubscriberError (cb_id cb))).
Proof.
  intros Hpre Hcb. induction Hpre as [|c pre Hc _ IH]; simpl.
  - now rewrite Hcb.
  - now rewrite Hc, IH.
Qed.

Lemma notify_quiet (a : string) (p : option Task) (s : Store) :
  quiet s -> res_val (notify a p s) = Normal tt.
Proof.
  intros Hq. unfold notify. rewrite forEach_call_quiet; [reflexivity|].
  eapply Forall_impl; [exact Hq|]. simpl. auto.
Qed.

Lemma announce_quiet {A} (a : string) (p : option Task) (v : A) (s : Store) :
  quiet s -> res_val (announce a p v s) = Normal v.
Proof.
  intros Hq. unfold announce, bind.
  rewrite (notify_quiet _ _ s Hq). simpl. rewrite notify_store.
  now rewrite (notify_quiet _ _ s Hq).
Qed.

Lemma saved_subscribers (clk : Clock) (d : string) (s : Store) :
  subscribers (saved clk d s) = subscribers s.
Proof.
  unfold saved. now destruct (Z.of_nat (length _) >? maxHistory s).
Qed.

Lemma replace_first_found (id : Z) (t' : Task) (l : list Task) (t : Task) :
  find (fun t => t_id t =? id) l = Some t -> t' ∈ replace_first id t' l.
Proof.
  induction l as [|x l IH]; simpl; [discriminate|].
  destruct (t_id x =? id); intros H.
  - now left.
  - right. now apply IH.
Qed.

(** C5, as stated, fails: [add({progress: 150})] stores a task whose
    progress is 150, and [update(1, {progress: -5})] then stores -5. *)
Lemma progress_is_not_clamped :
  (exists t,
     data (res_store (add sample_clock (progress_input 150) (newStore None None)))
       = [t] /\
     t_progress t = 150 /\ ~ (0 <= t_progress t <= 100)) /\
  (exists t,
     data (res_store
             (update sample_clock 1 (progress_patch (-5))
                (res_store (add sample_clock (progress_input 150)
                              (newStore None None))))) = [t] /\
     t_progress t = -5 /\ ~ (0 <= t_progress t <= 100)).
Proof.
  split; eexists; (split; [vm_compute; reflexivity|]); simpl; split; lia.
Qed.

(** C5, amended.  [add] and [update] do not clamp: a progress value [p]
    outside [0,100] is stored as it is, in the task appended by [add] and in
    the task patched by an [update] that finds its id.  Neither call throws
    on account of the value: the only exception either can raise is one
    thrown by a subscriber, and with subscribers that do not throw both
    return the stored task.  The clamp to [0,100] is made by the table
    editor ([saveRow]) before it calls [update]. *)
Theorem progress_stored_as_given (s : Store) (clk : Clock) (p : Z) :
  ~ (0 <= p <= 100) ->
  (forall task, ti_progress task = Some p ->
     exists t,
       data (res_store (add clk task s)) = data s ++ [t] /\
       t_progress t = p /\
       (forall e, res_val (add clk task s) = Throw e ->
          exists cb, cb ∈ subscribers s /\ e = SubscriberError (cb_id cb)) /\
       (quiet s -> res_val (add clk task s) = Normal t)) /\
  (forall id fields task, getById id s = Some task ->
     p_progress fields = Some p ->
     exists t,
       data (res_store (update clk id fields s)) = replace_first id t (data s) /\
       t ∈ data (res_store (update clk id fields s)) /\
       t_progress t = p /\
       (forall e, res_val (update clk id fields s) = Throw e ->
          exists cb, cb ∈ subscribers s /\ e = SubscriberError (cb_id cb)) /\
       (quiet s -> res_val (update clk id fields s) = Normal (Some t))) /\
  (forall parsed, 0 <= saveRow_progress parsed <= 100).
Proof.
  intros Hp. split; [|split].
  - intros task Ht. exists (new_task clk task s).
    rewrite add_store, add_eq.
    destruct (saved_frame clk "Добавление работы" (pushed clk task s))
      as (-> & _ & _).
    split; [reflexivity|]. split.
    { simpl. rewrite Ht. simpl. destruct (Z.eqb_spec p 0); [lia | reflexivity]. }
    split.
    + intros e He. apply announce_throws in He.
      now rewrite saved_subscribers in He.
    + intros Hq. apply announce_quiet. unfold quiet.
      now rewrite saved_subscribers.
  - intros id fields task Hg Hf. exists (patched (types s) task fields).
    rewrite (update_store _ _ _ _ _ Hg), (update_eq _ _ _ _ _ Hg).
    destruct (saved_frame clk "Обновление работы"
      (set_data (replace_first id (patched (types s) task fields) (data s)) s))
      as (-> & _ & _).
    split; [reflexivity|]. split.
    { simpl. eapply replace_first_found. exact Hg. }
    split.
    { unfold patched.
      destruct (truthy_str (p_type fields)), (truthy_str (p_color fields));
        simpl; now rewrite Hf. }
    split.
    + intros e He. apply announce_throws in He.
      now rewrite saved_subscribers in He.
    + intros Hq. apply announce_quiet. unfold quiet.
      now rewrite saved_subscribers.
  - intros parsed. unfold saveRow_progress. lia.
Qed.

(** ** C6: a throwing subscriber *)

(** C6, as stated, fails: with a throwing subscriber registered before
    another one, [notify] calls the first, the exception leaves [notify],
    and the second subscriber is not called. *)
Lemma throwing_subscriber_stops_fanout :
  let s := run [CSubscribe throwing_subscriber; CSubscribe silent_subscriber]
               (newStore None None) in
  subscribers s = [throwing_subscriber; silent_subscriber] /\
  res_trace (notify "add" None s) = [Invoke 1 "add" None] /\
  res_val (notify "add" None s) = Throw (SubscriberError 1) /\
  Invoke 2 "add" None ∉ res_trace (notify "add" None s).
Proof.
  cbv zeta. repeat split; try reflexivity.
  change (res_trace (notify "add" None
    (run [CSubscribe throwing_subscriber; CSubscribe silent_subscriber]
       (newStore None None)))) with [Invoke 1 "add" None].
  intros H. apply list_elem_of_singleton in H. discriminate.
Qed.

(** C6, amended.  [notify] leaves the store as it is and calls the
    subscribers in registration order with the same [(action, payload)].
    If none of them throws, all are called and [notify] returns.  If one
    throws, the subscribers registered before it and that one have been
    called, those registered after it are not called, and its exception
    leaves [notify]. *)
Theorem notify_calls_up_to_first_throw (s : Store) (a : string) (p : option Task) :
  res_store (notify a p s) = s /\
  (Forall (fun cb => cb_throws cb a p = false) (subscribers s) ->
   res_trace (notify a p s) = map (fun cb => Invoke (cb_id cb) a p) (subscribers s) /\
   res_val (notify a p s) = Normal tt) /\
  (forall pre cb post,
     subscribers s = pre ++ cb :: post ->
     Forall (fun cb => cb_throws cb a p = false) pre ->
     cb_throws cb a p = true ->
     res_trace (notify a p s) =
       map (fun cb => Invoke (cb_id cb) a p) (pre ++ [cb]) /\
     res_val (notify a p s) = Throw (SubscriberError (cb_id cb))).
Proof.
  split; [apply notify_store|]. split.
  - intros H. unfold notify. now rewrite forEach_call_quiet.
  - intros pre cb post Hs Hpre Hcb. unfold notify.
    now rewrite Hs, (forEach_call_throw pre post cb a p Hpre Hcb).
Qed.

(** ** C7: the critical set *)





Lemma find_id_some (id : Z) (l : list Task) (t : Task) :
  find (fun t => t_id t =? id) l = Some t -> t ∈ l /\ t_id t = id.
Proof.
  induction l as [|x l IH]; simpl; [discriminate|].
  destruct (Z.eqb_spec (t_id x) id) as [E|E].
  - intros [= <-]. split; [now left | exact E].
  - intros H. destruct (IH H). split; [now right | assumption].
Qed.

Lemma find_id_exists (id : Z) (l : list Task) (t : Task) :
  t ∈ l -> t_id t = id -> exists t', find (fun t => t_id t =? id) l = Some t'.
Proof.
  induction l as [|x l IH]; intros Hin Hid.
  - now apply elem_of_nil in Hin.
  - simpl. destruct (Z.eqb_spec (t_id x) id) as [E|E]; [now exists x|].
    apply elem_of_cons in Hin as [->|Hin]; [contradiction|]. now apply IH.
Qed.





Lemma calculateCriticalPath_eq (s : Store) :
  calculateCriticalPath s =
  mkResult (set_criticalTasks (critical_of s) s) [] (Normal (critical_of s)).
Proof.
  unfold calculateCriticalPath. rewrite !bind_modify, bind_get. reflexivity.
Qed.


(** On the demo data the high-priority tasks 1, 3 and 4 are critical, and
    so is task 2, which task 3 depends on. *)
Example calculateCriticalPath_demo :
  res_val (calculateCriticalPath (run demo_calls (newStore None None)))
  = Normal [1; 3; 4; 2].
Proof. vm_compute. reflexivity. Qed.

(** ** C8: unknown ids *)

Lemma find_id_none (id : Z) (l : list Task) :
  id ∉ map t_id l -> find (fun t => t_id t =? id) l = None.
Proof.
  induction l as [|x l IH]; simpl; [reflexivity|]. intros H.
  destruct (Z.eqb_spec (t_id x) id) as [E|E].
  - exfalso. apply H. rewrite E. now left.
  - apply IH. intros Hin. apply H. now right.
Qed.

Lemma findIndex_none (id : Z) (l : list Task) :
  id ∉ map t_id l -> findIndex id l = None.
Proof.
  induction l as [|x l IH]; simpl; [reflexivity|]. intros H.
  destruct (Z.eqb_spec (t_id x) id) as [E|E].
  - exfalso. apply H. rewrite E. now left.
  - rewrite IH; [reflexivity|]. intros Hin. apply H. now right.
Qed.

(** C8.  When no task of the list has the id, [update] and [delete] return
    [null], call no subscriber and leave the store exactly as it was: the
    task list, the history and its cursor, and every other field. *)
Theorem update_delete_unknown_id_noop (s : Store) (clk : Clock) (id : Z)
    (fields : Patch) :
  id ∉ map t_id (data s) ->
  update clk id fields s = mkResult s [] (Normal None) /\
  delete clk id s = mkResult s [] (Normal None).
Proof.
  intros H. split.
  - apply update_none. unfold getById. now apply find_id_none.
  - apply delete_none. now apply findIndex_none.
Qed.

(** ** C9: the tick interval *)

(** C9.  [chooseTickInterval] is the step function with steps at 480, 1440,
    2880 and 10080 minutes; the values at 480, 1440 and 20000 are 30, 60
    and 1440. *)
Theorem chooseTickInterval_steps (span : Z) :
  (span <= 480 -> chooseTickInterval span = 30) /\
  (480 < span <= 1440 -> chooseTickInterval span = 60) /\
  (1440 < span <= 2880 -> chooseTickInterval span = 120) /\
  (2880 < span <= 10080 -> chooseTickInterval span = 720) /\
  (10080 < span -> chooseTickInterval span = 1440) /\
  chooseTickInterval 480 = 30 /\
  chooseTickInterval 1440 = 60 /\
  chooseTickInterval 20000 = 1440.
Proof.
  unfold chooseTickInterval.
  repeat split; try reflexivity; intros H;
    repeat match goal with
           | |- context [?a <=? ?b] => destruct (Z.leb_spec a b); try lia
           end.
Qed.

(** ** C10: the history after an import *)

(** C10.  In every reachable state, an [importData] that returns [true]
    leaves a history of exactly one entry, the snapshot of the imported
    state, with the cursor at index 0; [canUndo], [canRedo], [undo] and
    [redo] all answer [false] right after it. *)
Theorem importData_resets_history (s : Store) (clk : Clock) (json : ImportArg) :
  reachable s ->
  res_val (importData clk json s) = Normal true ->
  let s' := res_store (importData clk json s) in
  history s' = [mkEntry (live s') "Импорт данных" (clock_now clk)] /\
  length (history s') = 1%nat /\
  historyIndex s' = 0 /\
  canUndo s' = false /\
  canRedo s' = false /\
  res_val (undo s') = Normal false /\
  res_val (redo s') = Normal false.
Proof.
  intros Hr Ht. destruct (importData_true _ _ _ Ht) as [v ->]. cbv zeta.
  rewrite importData_store.
  destruct (reachable_hist_ok s Hr) as (_ & _ & Hmax).
  destruct (imported_store_hist v s) as (Hh & Hi & Hm).
  assert (E : saved clk "Импорт данных" (imported_store v s) =
              set_historyIndex 0
                (set_history [mkEntry (live (imported_store v s))
                                "Импорт данных" (clock_now clk)]
                   (imported_store v s))).
  { unfold saved, kept. rewrite Hh, Hi, Hm, Hmax. reflexivity. }
  rewrite E.
  repeat split; reflexivity.
Qed.

(** ** The theorems at concrete stores *)

Lemma saveState_cursor_on_written_snapshot_witness :
  reachable full_store /\
  Z.of_nat (length (history full_store)) = maxHistory full_store /\
  cursor_entry (res_store (add sample_clock blank_input full_store)) =
  Some (mkEntry (live (res_store (add sample_clock blank_input full_store)))
          "Добавление работы" (clock_now sample_clock)).
Proof.
  assert (Hr : reachable full_store).
  { exists None, None, (repeat (CAdd sample_clock blank_input) 50). reflexivity. }
  split; [exact Hr|]. split; [vm_compute; reflexivity|].
  destruct (saveState_cursor_on_written_snapshot full_store Hr)
    as (_ & Hadd & _).
  exact (Hadd sample_clock blank_input).
Defined.

Lemma undo_then_redo_restores_witness :
  res_val (undo (run (map call_of
                        [EAdd sample_clock blank_input;
                         EAdd sample_clock (progress_input 40)])
                   (run (map CSubscribe [silent_subscriber]) (newStore None None))))
    = Normal true /\
  res_store
    (redo (res_store
       (undo (run (map call_of
                     [EAdd sample_clock blank_input;
                      EAdd sample_clock (progress_input 40)])
                (run (map CSubscribe [silent_subscriber]) (newStore None None))))))
  = run (map call_of
           [EAdd sample_clock blank_input; EAdd sample_clock (progress_input 40)])
        (run (map CSubscribe [silent_subscriber]) (newStore None None)).
Proof.
  assert (Hu : res_val (undo (run (map call_of
                        [EAdd sample_clock blank_input;
                         EAdd sample_clock (progress_input 40)])
                   (run (map CSubscribe [silent_subscriber]) (newStore None None))))
    = Normal true) by (vm_compute; reflexivity).
  split; [exact Hu|].
  destruct (undo_then_redo_restores None None [silent_subscriber]
    [EAdd sample_clock blank_input; EAdd sample_clock (progress_input 40)] Hu)
    as (_ & _ & _ & _ & H & _).
  exact H.
Defined.

Lemma edit_after_undo_prunes_redo_witness :
  reachable two_tasks /\
  canRedo (step CUndo two_tasks) = true /\
  res_val (redo (step (CAdd sample_clock blank_input) (step CUndo two_tasks)))
    = Normal false.
Proof.
  assert (Hr : reachable two_tasks).
  { exists None, None,
      [CAdd sample_clock blank_input; CAdd sample_clock blank_input].
    reflexivity. }
  split; [exact Hr|]. split; [vm_compute; reflexivity|].
  destruct (edit_after_undo_prunes_redo two_tasks Hr) as [_ H].
  exact (H sample_clock blank_input).
Defined.

Lemma add_ids_increase_without_undo_or_import_witness :
  forallb keeps_counter
    [CAdd sample_clock blank_input; CAdd sample_clock blank_input;
     CDelete sample_clock 2; CRedo; CAdd sample_clock blank_input] = true /\
  StronglySorted Z.lt
    (returned_ids
       [CAdd sample_clock blank_input; CAdd sample_clock blank_input;
        CDelete sample_clock 2; CRedo; CAdd sample_clock blank_input]
       (newStore None None)).
Proof.
  split; [reflexivity|].
  apply (add_ids_increase_without_undo_or_import None None
    [CAdd sample_clock blank_input; CAdd sample_clock blank_input;
     CDelete sample_clock 2; CRedo; CAdd sample_clock blank_input]).
  reflexivity.
Defined.

Lemma progress_stored_as_given_witness :
  ~ (0 <= 150 <= 100) /\
  exists t,
    data (res_store (add sample_clock (progress_input 150) two_tasks))
      = data two_tasks ++ [t] /\
    t_progress t = 150.
Proof.
  assert (Hp : ~ (0 <= 150 <= 100)) by lia.
  split; [exact Hp|].
  destruct (progress_stored_as_given two_tasks sample_clock 150 Hp) as (Hadd & _).
  destruct (Hadd (progress_input 150) eq_refl) as (t & Hd & Ht & _).
  exists t. split; [exact Hd | exact Ht].
Defined.

Lemma notify_calls_up_to_first_throw_witness :
  let s := run [CSubscribe silent_subscriber; CSubscribe throwing_subscriber;
                CSubscribe silent_subscriber] (newStore None None) in
  subscribers s = [silent_subscriber] ++ throwing_subscriber :: [silent_subscriber] /\
  res_trace (notify "update" None s) =
    [Invoke 2 "update" None; Invoke 1 "update" None] /\
  res_val (notify "update" None s) = Throw (SubscriberError 1).
Proof.
  cbv zeta. split; [reflexivity|].
  destruct (notify_calls_up_to_first_throw
    (run [CSubscribe silent_subscriber; CSubscribe throwing_subscriber;
          CSubscribe silent_subscriber] (newStore None None)) "update" None)
    as (_ & _ & H).
  apply (H [silent_subscriber] throwing_subscriber [silent_subscriber]).
  - reflexivity.
  - constructor; [reflexivity | constructor].
  - reflexivity.
Defined.

Lemma update_delete_unknown_id_noop_witness :
  (7 ∉ map t_id (data two_tasks)) /\
  update sample_clock 7 (progress_patch 10) two_tasks
    = mkResult two_tasks [] (Normal None) /\
  delete sample_clock 7 two_tasks = mkResult two_tasks [] (Normal None).
Proof.
  assert (H : 7 ∉ map t_id (data two_tasks)).
  { apply (bool_decide_unpack _). vm_compute. exact I. }
  split; [exact H|].
  exact (update_delete_unknown_id_noop two_tasks sample_clock 7
           (progress_patch 10) H).
Defined.

Lemma chooseTickInterval_steps_witness :
  480 < 481 <= 1440 /\ chooseTickInterval 481 = 60.
Proof.
  assert (H : 480 < 481 <= 1440) by lia.
  split; [exact H|].
  destruct (chooseTickInterval_steps 481) as (_ & H60 & _).
  exact (H60 H).
Defined.

Lemma importData_resets_history_witness :
  reachable two_tasks /\
  res_val (importData sample_clock (Value (ImpArray (data two_tasks))) two_tasks)
    = Normal true /\
  historyIndex
    (res_store (importData sample_clock (Value (ImpArray (data two_tasks)))
                  two_tasks)) = 0 /\
  length (history
    (res_store (importData sample_clock (Value (ImpArray (data two_tasks)))
                  two_tasks))) = 1%nat.
Proof.
  assert (Hr : reachable two_tasks).
  { exists None, None,
      [CAdd sample_clock blank_input; CAdd sample_clock blank_input].
    reflexivity. }
  assert (Ht : res_val (importData sample_clock
                 (Value (ImpArray (data two_tasks))) two_tasks) = Normal true)
    by (vm_compute; reflexivity).
  split; [exact Hr|]. split; [exact Ht|].
  destruct (importData_resets_history two_tasks sample_clock
              (Value (ImpArray (data two_tasks))) Hr Ht)
    as (_ & Hl & Hi & _).
  split; [exact Hi | exact Hl].
Defined.


(** * Further properties of the store *)

(** ** The history and its cursor *)

(** What a call can do to the history: leave it and the cursor alone, end in
    [saveState] (on the old history, or on the empty one [importData]
    installs), or move the cursor one entry back or forth. *)
Lemma step_shape (c : Call) (s : Store) :
  (history (step c s) = history s /\ historyIndex (step c s) = historyIndex s /\
   maxHistory (step c s) = maxHistory s) \/
  (exists clk d s0, step c s = saved clk d s0 /\ maxHistory s0 = maxHistory s /\
     ((history s0 = history s /\ historyIndex s0 = historyIndex s) \/
      (history s0 = [] /\ historyIndex s0 = -1))) \/
  (0 < historyIndex s /\ step c s = moved_to (historyIndex s - 1) s) \/
  (canRedo s = true /\ step c s = moved_to (historyIndex s + 1) s).
Proof.
  destruct c; cbn [step].
  - right; left. eexists _, _, _. split; [apply add_store|]. simpl. auto.
  - destruct (getById id s) as [t|] eqn:E.
    + right; left. eexists _, _, _.
      split; [apply (update_store _ _ _ _ _ E)|]. simpl. auto.
    + left. now rewrite update_none.
  - destruct (findIndex id (data s)) as [i|] eqn:E.
    + right; left. eexists _, _, _.
      split; [apply (delete_store _ _ _ _ E)|]. simpl. auto.
    + left. now rewrite delete_none.
  - rewrite duplicate_store. destruct (getById id s); [|now left].
    right; left. eexists _, _, _. split; [apply add_store|]. simpl. auto.
  - right; left. eexists _, _, _. split; [apply saveState_store|]. auto.
  - rewrite undo_store, Z.gtb_ltb.
    destruct (Z.ltb_spec 0 (historyIndex s)); [|now left].
    right; right; left. now split.
  - rewrite redo_store. destruct (canRedo s) eqn:E; [|now left].
    right; right; right. now split.
  - left. unfold addType. now rewrite modify_notify_store.
  - left. unfold updateType. destruct (decide (oldName = newName)).
    + now rewrite bind_ret, modify_notify_store.
    + now rewrite bind_assoc, bind_modify, bind_modify, modify_notify_store.
  - left. unfold deleteType. now rewrite modify_notify_store.
  - left. unfold calculateCriticalPath. now rewrite !bind_modify, bind_get.
  - left. unfold toggleCritical, modify; simpl.
    now destruct (set_has id (criticalTasks s)).
  - left. unfold setProjectName. now rewrite modify_notify_store.
  - now left.
  - now left.
  - rewrite importData_store. destruct json as [| |v]; [now left | now left |].
    right; left. eexists _, _, _. split; [reflexivity|].
    destruct (imported_store_hist v s) as (Hh & Hi & Hm). auto.
Qed.

(** The cursor is [-1] only on an empty history. *)
Lemma reachable_cursor (s : Store) :
  reachable s -> historyIndex s = -1 -> history s = [].
Proof.
  intros (ty & pn & cs & ->).
  induction cs as [|c cs IH] using rev_ind; [reflexivity|].
  rewrite run_snoc.
  assert (Hok : hist_ok (run cs (newStore ty pn))).
  { apply reachable_hist_ok. now exists ty, pn, cs. }
  set (s := run cs (newStore ty pn)) in *.
  destruct (step_shape c s)
    as [(Hh & Hi & _) | [(clk & d & s0 & -> & Hm & Hs) | [(Hpos & ->) | (Hr & ->)]]].
  - rewrite Hh, Hi. exact IH.
  - assert (H0 : hist_ok s0).
    { destruct Hok as (H1 & H2 & H3). unfold hist_ok.
      destruct Hs as [(-> & ->) | (-> & ->)]; rewrite Hm; simpl; lia. }
    destruct (saved_spec clk d s0 H0) as (_ & Hc & _). simpl in Hc.
    intros Hneg. rewrite Hneg in Hc.
    destruct (history (saved clk d s0)); [reflexivity | simpl in Hc; lia].
  - destruct (moved_to_history (historyIndex s - 1) s) as (_ & -> & _). lia.
  - destruct (moved_to_history (historyIndex s + 1) s) as (_ & -> & _).
    destruct Hok as (H1 & _). lia.
Qed.

(** X1.  In every reachable state the history holds at most 50 entries, and
    the cursor is [-1] on an empty history and otherwise the index of an
    entry of the history: [history[historyIndex]] exists whenever the
    history is not empty. *)
Theorem history_bounded_cursor_valid (s : Store) :
  reachable s ->
  (length (history s) <= 50)%nat /\
  ((history s = [] /\ historyIndex s = -1) \/
   (0 <= historyIndex s < Z.of_nat (length (history s)) /\
    exists e, at_index (history s) (historyIndex s) = Some e)).
Proof.
  intros Hr. destruct (reachable_hist_ok s Hr) as (Hi & Hlen & Hmax).
  split; [lia|].
  destruct (Z.eq_dec (historyIndex s) (-1)) as [E|E].
  - left. split; [now apply reachable_cursor | exact E].
  - right. split; [lia|]. apply at_index_some. lia.
Qed.

Lemma then_ret_quiet {A} (a : string) (p : option Task) (v : A) (s : Store) :
  quiet s -> res_val ((exec notify a p in ret v) s) = Normal v.
Proof. intros Hq. unfold bind. now rewrite (notify_quiet a p s Hq). Qed.

(** X2.  In every reachable state [undo] agrees with [canUndo].  When
    [canUndo] is [false], [undo] returns [false], calls no subscriber and
    leaves the store as it is.  When it is [true], [undo] moves the cursor
    one entry back, onto an existing entry whose task list, [nextId] and
    critical ids it restores; it does not return [false], the only
    exception it can raise is one thrown by a subscriber, and with
    subscribers that do not throw it returns [true]. *)
Theorem undo_agrees_with_canUndo (s : Store) :
  reachable s ->
  (canUndo s = false -> undo s = mkResult s [] (Normal false)) /\
  (canUndo s = true ->
   exists e,
     at_index (history s) (historyIndex s - 1) = Some e /\
     historyIndex (res_store (undo s)) = historyIndex s - 1 /\
     history (res_store (undo s)) = history s /\
     data (res_store (undo s)) = snap_data (h_state e) /\
     nextId (res_store (undo s)) = snap_nextId (h_state e) /\
     criticalTasks (res_store (undo s)) =
       set_of_array (snap_criticalTasks (h_state e)) /\
     res_val (undo s) <> Normal false /\
     (forall x, res_val (undo s) = Throw x ->
        exists cb, cb ∈ subscribers s /\ x = SubscriberError (cb_id cb)) /\
     (quiet s -> res_val (undo s) = Normal true)).
Proof.
  intros Hr. destruct (reachable_hist_ok s Hr) as (Hi & Hlen & Hmax). split.
  - intros H. now apply undo_false.
  - unfold canUndo. intros H.
    assert (Hpos : 0 < historyIndex s).
    { rewrite Z.gtb_ltb in H. now apply Z.ltb_lt. }
    destruct (at_index_some (history s) (historyIndex s - 1)) as [e He]; [lia|].
    exists e. split; [exact He|]. rewrite (undo_eq s e H He).
    set (s1 := restored (h_state e) (set_historyIndex (historyIndex s - 1) s)).
    destruct (notifier_then_ret "undo" None true s1) as [-> Hthrow].
    repeat split.
    + unfold bind. destruct (res_val (notify "undo" None s1)); simpl; discriminate.
    + intros x Hx. apply Hthrow in Hx. exact Hx.
    + intros Hq. now apply then_ret_quiet.
Qed.

(** X3.  The same for [redo] and [canRedo]. *)
Theorem redo_agrees_with_canRedo (s : Store) :
  reachable s ->
  (canRedo s = false -> redo s = mkResult s [] (Normal false)) /\
  (canRedo s = true ->
   exists e,
     at_index (history s) (historyIndex s + 1) = Some e /\
     historyIndex (res_store (redo s)) = historyIndex s + 1 /\
     history (res_store (redo s)) = history s /\
     data (res_store (redo s)) = snap_data (h_state e) /\
     nextId (res_store (redo s)) = snap_nextId (h_state e) /\
     criticalTasks (res_store (redo s)) =
       set_of_array (snap_criticalTasks (h_state e)) /\
     res_val (redo s) <> Normal false /\
     (forall x, res_val (redo s) = Throw x ->
        exists cb, cb ∈ subscribers s /\ x = SubscriberError (cb_id cb)) /\
     (quiet s -> res_val (redo s) = Normal true)).
Proof.
  intros Hr. destruct (reachable_hist_ok s Hr) as (Hi & Hlen & Hmax). split.
  - intros H. now apply redo_false.
  - intros H.
    assert (Hlt : historyIndex s < Z.of_nat (length (history s)) - 1).
    { unfold canRedo in H. now apply Z.ltb_lt. }
    destruct (at_index_some (history s) (historyIndex s + 1)) as [e He]; [lia|].
    exists e. split; [exact He|]. rewrite (redo_eq s e H He).
    set (s1 := restored (h_state e) (set_historyIndex (historyIndex s + 1) s)).
    destruct (notifier_then_ret "redo" None true s1) as [-> Hthrow].
    repeat split.
    + unfold bind. destruct (res_val (notify "redo" None s1)); simpl; discriminate.
    + intros x Hx. apply Hthrow in Hx. exact Hx.
    + intros Hq. now apply then_ret_quiet.
Qed.

Lemma run_subscribe_frame (subs : list Subscriber) (s : Store) :
  run (map CSubscribe subs) s = set_subscribers (subscribers s ++ subs) s.
Proof.
  revert s. induction subs as [|cb subs IH]; intros s; simpl.
  - rewrite app_nil_r. now destruct s.
  - rewrite IH. unfold subscribe, modify; simpl. unfold set_subscribers; simpl.
    now rewrite <- app_assoc.
Qed.

(** X4.  The first [add] of a session cannot be undone: on a newly
    constructed store, whatever subscribers it has, the history after the
    first [add] holds the one snapshot with the new task, [canUndo] is
    [false], and [undo] returns [false] and leaves the task in the list. *)
Theorem first_add_cannot_be_undone
    (savedTypes : option (gmap string string)) (savedName : option string)
    (subs : list Subscriber) (clk : Clock) (task : TaskInput) :
  let s1 := res_store (add clk task (fresh_store savedTypes savedName subs)) in
  (exists t, data s1 = [t] /\ t_id t = 1) /\
  length (history s1) = 1%nat /\
  canUndo s1 = false /\
  undo s1 = mkResult s1 [] (Normal false).
Proof.
  cbv zeta. unfold fresh_store. rewrite add_store, run_subscribe_frame.
  split; [eexists; split; reflexivity|]. split; [reflexivity|].
  split; [reflexivity|]. now apply undo_false.
Qed.

(** An [undo] that moves followed by [redo] restores what the entry under
    the cursor records, whatever the live state was. *)
Lemma undo_redo_to_cursor (s : Store) (e : HistoryEntry) :
  hist_ok s -> 0 < historyIndex s ->
  at_index (history s) (historyIndex s) = Some e ->
  res_store (redo (res_store (undo s))) =
  restored (h_state e) s.
Proof.
  intros (Hi & Hlen & Hmax) Hpos He.
  rewrite undo_store. rewrite Z.gtb_ltb.
  destruct (Z.ltb_spec 0 (historyIndex s)); [|lia].
  destruct (at_index_some (history s) (historyIndex s - 1)) as [e' He']; [lia|].
  unfold moved_to at 1. rewrite He'.
  set (s1 := restored (h_state e') (set_historyIndex (historyIndex s - 1) s)).
  assert (Hc : canRedo s1 = true).
  { unfold canRedo, s1; simpl. apply Z.ltb_lt. lia. }
  assert (He1 : at_index (history s1) (historyIndex s1 + 1) = Some e).
  { unfold s1; simpl. rewrite Z.sub_add. exact He. }
  rewrite (redo_eq s1 e Hc He1).
  destruct (notifier_then_ret "redo" None true
    (restored (h_state e) (set_historyIndex (historyIndex s1 + 1) s1))) as [-> _].
  unfold restored, s1; simpl. rewrite Z.sub_add. now destruct s.
Qed.

(** The entry under the old cursor is the entry before the new cursor after
    [saveState]. *)
Lemma saved_previous_entry (clk : Clock) (d : string) (s0 : Store)
    (e : HistoryEntry) :
  hist_ok s0 -> at_index (history s0) (historyIndex s0) = Some e ->
  0 < historyIndex (saved clk d s0) /\
  at_index (history (saved clk d s0)) (historyIndex (saved clk d s0) - 1) = Some e.
Proof.
  intros H He. pose proof H as (Hi & Hlen & Hmax).
  assert (H0 : 0 <= historyIndex s0).
  { unfold at_index in He. destruct (Z.ltb_spec (historyIndex s0) 0); [discriminate | lia]. }
  assert (Hl : history s0 !! Z.to_nat (historyIndex s0) = Some e).
  { unfold at_index in He. destruct (Z.ltb_spec (historyIndex s0) 0); [lia | exact He]. }
  destruct (kept_take s0 Hi) as [Hk Hkl].
  assert (Hke : kept s0 !! Z.to_nat (historyIndex s0) = Some e).
  { rewrite Hk, lookup_take_lt by lia. exact Hl. }
  unfold saved. rewrite Z.gtb_ltb.
  assert (Hlen' : Z.of_nat (length (kept s0 ++ [mkEntry (live s0) d (clock_now clk)]))
                  = historyIndex s0 + 2).
  { rewrite length_app; simpl. lia. }
  destruct (Z.ltb_spec (maxHistory s0)
    (Z.of_nat (length (kept s0 ++ [mkEntry (live s0) d (clock_now clk)])))); simpl.
  - split; [lia|]. rewrite at_index_shift by lia. rewrite Z.sub_add.
    unfold at_index. destruct (Z.ltb_spec (historyIndex s0) 0); [lia|].
    rewrite lookup_app_l; [exact Hke|].
    apply lookup_lt_Some in Hke. exact Hke.
  - split; [lia|]. replace (historyIndex s0 + 1 - 1) with (historyIndex s0) by lia.
    unfold at_index. destruct (Z.ltb_spec (historyIndex s0) 0); [lia|].
    rewrite lookup_app_l; [exact Hke|].
    apply lookup_lt_Some in Hke. exact Hke.
Qed.

(** X5.  [undo] takes back the last edit.  After any sequence of [add],
    [update] and [delete] calls on a new store of which at least one has
    written a snapshot, a further mutating edit followed by [undo] brings
    back the task list, [nextId] and critical set as they were before that
    edit; the [undo] does not answer [false]. *)
Theorem undo_takes_back_last_edit
    (savedTypes : option (gmap string string)) (savedName : option string)
    (subs : list Subscriber) (es : list Edit) (c : Edit) :
  let s := run (map call_of es) (fresh_store savedTypes savedName subs) in
  0 <= historyIndex s ->
  mutates (call_of c) s = true ->
  let r := undo (step (call_of c) s) in
  data (res_store r) = data s /\
  nextId (res_store r) = nextId s /\
  criticalTasks (res_store r) = criticalTasks s /\
  res_val r <> Normal false.
Proof.
  intros s Hidx Hm r.
  assert (Hinv : edit_inv s).
  { apply edit_inv_run, edit_inv_subscribed, edit_inv_new. }
  destruct Hinv as (H & Hnd & Hs). destruct (Hs Hidx) as (e & He & Hst).
  destruct (mutates_saved _ _ Hm) as (clk & d & s0 & E & Hh & Hi & Hx).
  assert (H0 : hist_ok s0) by (apply (hist_ok_frame s); auto).
  rewrite <- Hh, <- Hi in He.
  destruct (saved_previous_entry clk d s0 e H0 He) as [Hpos Hprev].
  subst r. rewrite E.
  assert (Hu : (historyIndex (saved clk d s0) >? 0) = true).
  { rewrite Z.gtb_ltb. now apply Z.ltb_lt. }
  rewrite (undo_eq _ e Hu Hprev).
  destruct (notifier_then_ret "undo" None true
    (restored (h_state e)
       (set_historyIndex (historyIndex (saved clk d s0) - 1) (saved clk d s0))))
    as [-> _].
  rewrite Hst. unfold restored, live; simpl. unfold array_from.
  rewrite set_of_array_nodup by exact Hnd.
  repeat split.
  unfold bind. destruct (res_val (notify "undo" None _)); simpl; discriminate.
Qed.

(** X6.  [undo] and [redo] restore tasks, [nextId] and the critical set
    only: in every store they leave the type registry, the project name,
    the subscriber list and the entries of the history as they are. *)
Theorem undo_redo_keep_registry (s : Store) :
  (types (res_store (undo s)) = types s /\
   projectName (res_store (undo s)) = projectName s /\
   subscribers (res_store (undo s)) = subscribers s /\
   history (res_store (undo s)) = history s) /\
  (types (res_store (redo s)) = types s /\
   projectName (res_store (redo s)) = projectName s /\
   subscribers (res_store (redo s)) = subscribers s /\
   history (res_store (redo s)) = history s).
Proof.
  rewrite undo_store, redo_store. split.
  - destruct (historyIndex s >? 0); [|auto]. unfold moved_to.
    destruct (at_index _ _); simpl; auto.
  - destruct (canRedo s); [|auto]. unfold moved_to.
    destruct (at_index _ _); simpl; auto.
Qed.

(** X7.  Changes to the type registry, to the critical marks, to the
    project name and to the subscriber list write no snapshot: the calls
    [addType], [updateType], [deleteType], [calculateCriticalPath],
    [toggleCritical], [setProjectName], [subscribe] and the unsubscribe
    function leave the history and the cursor as they are, so [canUndo] and
    [canRedo] answer as before. *)
Theorem registry_changes_write_no_snapshot (c : Call) (s : Store) :
  unrecorded c = true ->
  history (step c s) = history s /\
  historyIndex (step c s) = historyIndex s /\
  canUndo (step c s) = canUndo s /\
  canRedo (step c s) = canRedo s.
Proof.
  intros Hc.
  assert (H : history (step c s) = history s /\
              historyIndex (step c s) = historyIndex s).
  { destruct c; try discriminate; cbn [step].
    - unfold addType. now rewrite modify_notify_store.
    - unfold updateType. destruct (decide (oldName = newName)).
      + now rewrite bind_ret, modify_notify_store.
      + now rewrite bind_assoc, bind_modify, bind_modify, modify_notify_store.
    - unfold deleteType. now rewrite modify_notify_store.
    - unfold calculateCriticalPath. now rewrite !bind_modify, bind_get.
    - unfold toggleCritical, modify; simpl.
      now destruct (set_has id (criticalTasks s)).
    - unfold setProjectName. now rewrite modify_notify_store.
    - now split.
    - now split. }
  destruct H as [Hh Hi]. unfold canUndo, canRedo. now rewrite Hh, Hi.
Qed.

(** X8.  A renaming of a type by [updateType] does not survive
    [undo(); redo()].  After a sequence of edits on a new store that leaves
    the cursor at an index above 0, rename a type and then call [undo] and
    [redo]: the task list is again the one from before the renaming (the
    tasks carry the old type name and colour), while the registry keeps the
    renaming. *)
Theorem rename_lost_by_undo_redo
    (savedTypes : option (gmap string string)) (savedName : option string)
    (subs : list Subscriber) (es : list Edit) (oldName newName color : string) :
  let s := run (map call_of es) (fresh_store savedTypes savedName subs) in
  0 < historyIndex s ->
  let s1 := res_store (updateType oldName newName color s) in
  let s2 := res_store (redo (res_store (undo s1))) in
  data s2 = data s /\ types s2 = types s1.
Proof.
  intros s Hpos s1 s2.
  assert (Hinv : edit_inv s).
  { apply edit_inv_run, edit_inv_subscribed, edit_inv_new. }
  destruct Hinv as (H & Hnd & Hs).
  destruct (Hs ltac:(lia)) as (e & He & Hst).
  assert (Hf : history s1 = history s /\ historyIndex s1 = historyIndex s /\
               maxHistory s1 = maxHistory s).
  { subst s1. unfold updateType. destruct (decide (oldName = newName)).
    - now rewrite bind_ret, modify_notify_store.
    - now rewrite bind_assoc, bind_modify, bind_modify, modify_notify_store. }
  destruct Hf as (Hh & Hi & Hm).
  assert (H1 : hist_ok s1) by (apply (hist_ok_frame s); auto).
  subst s2. rewrite (undo_redo_to_cursor s1 e H1); [| lia | now rewrite Hh, Hi].
  rewrite Hst. now split.
Qed.

(** ** Edits *)

Lemma findIndex_split (id : Z) (l : list Task) (i : nat) :
  findIndex id l = Some i ->
  exists pre t post,
    l = pre ++ t :: post /\ t_id t = id /\
    Forall (fun u => t_id u <> id) pre /\
    l !! i = Some t /\ splice1 i l = pre ++ post.
Proof.
  revert i. induction l as [|x l IH]; intros i; simpl; [discriminate|].
  destruct (Z.eqb_spec (t_id x) id) as [E|E].
  - intros [= <-]. exists [], x, l. repeat split; auto.
  - destruct (findIndex id l) as [j|]; [|discriminate]. simpl. intros [= <-].
    destruct (IH j eq_refl) as (pre & t & post & -> & Hid & Hpre & Hl & Hsp).
    exists (x :: pre), t, post. repeat split; auto.
    unfold splice1 in *; simpl. now rewrite Hsp.
Qed.

Lemma findIndex_found (id : Z) (l : list Task) :
  id ∈ map t_id l -> exists i, findIndex id l = Some i.
Proof.
  induction l as [|x l IH]; simpl; intros H.
  - now apply elem_of_nil in H.
  - destruct (Z.eqb_spec (t_id x) id) as [E|E]; [now exists 0%nat|].
    apply elem_of_cons in H as [H|H]; [congruence|].
    destruct (IH H) as [i ->]. now exists (S i).
Qed.

Lemma find_id_split (id : Z) (l : list Task) (t t' : Task) :
  find (fun t => t_id t =? id) l = Some t ->
  exists pre post,
    l = pre ++ t :: post /\ t_id t = id /\
    Forall (fun u => t_id u <> id) pre /\
    replace_first id t' l = pre ++ t' :: post.
Proof.
  induction l as [|x l IH]; simpl; [discriminate|].
  destruct (Z.eqb_spec (t_id x) id) as [E|E].
  - intros [= <-]. exists [], l. repeat split; auto.
  - intros H. destruct (IH H) as (pre & post & -> & Hid & Hpre & Hr).
    exists (x :: pre), post. repeat split; auto. simpl. now rewrite Hr.
Qed.

Lemma find_id_found (id : Z) (l : list Task) :
  id ∈ map t_id l -> exists t, find (fun t => t_id t =? id) l = Some t.
Proof.
  intros H. apply list_elem_of_fmap in H as (t & -> & Hin).
  now apply (find_id_exists _ _ t).
Qed.

Lemma set_has_delete (j id : Z) (c : JsSet) :
  set_has j (set_delete id c) = if decide (j = id) then false else set_has j c.
Proof.
  unfold set_has, set_delete. destruct (decide (j = id)) as [->|Hj].
  - apply bool_decide_eq_false_2. rewrite list_elem_of_filter. tauto.
  - apply bool_decide_ext. rewrite list_elem_of_filter. tauto.
Qed.

(** X9.  [delete] of an id that occurs in the list removes the first task
    with that id and nothing else: the tasks before and after it stay, in
    order; the id is no longer critical and the critical marks of all other
    ids stay; [nextId] stays; with subscribers that do not throw the
    removed task is returned. *)
Theorem delete_removes_first_match (s : Store) (clk : Clock) (id : Z) :
  id ∈ map t_id (data s) ->
  let r := delete clk id s in
  exists pre t post,
    data s = pre ++ t :: post /\ t_id t = id /\
    Forall (fun u => t_id u <> id) pre /\
    data (res_store r) = pre ++ post /\
    isCritical id (res_store r) = false /\
    (forall j, j <> id -> isCritical j (res_store r) = isCritical j s) /\
    nextId (res_store r) = nextId s /\
    (quiet s -> res_val r = Normal (Some t)).
Proof.
  intros Hin r. destruct (findIndex_found _ _ Hin) as [i Hi].
  destruct (findIndex_split _ _ _ Hi) as (pre & t & post & Hd & Hid & Hpre & Hl & Hsp).
  exists pre, t, post. subst r.
  rewrite (delete_store _ _ _ _ Hi), (delete_eq _ _ _ _ Hi).
  set (s0 := set_criticalTasks (set_delete id (criticalTasks s))
               (set_data (splice1 i (data s)) s)).
  destruct (saved_frame clk "Удаление работы" s0) as (Hdata & Hnext & Hcrit).
  unfold isCritical. rewrite Hdata, Hnext, Hcrit. subst s0; simpl.
  repeat split; auto.
  - rewrite set_has_delete. now destruct (decide (id = id)).
  - intros j Hj. rewrite set_has_delete. now destruct (decide (j = id)).
  - intros Hq. rewrite Hl. apply announce_quiet. unfold quiet.
    now rewrite saved_subscribers.
Qed.

(** X10.  [update] of an id that occurs in the list changes the first task
    with that id and nothing else: the list keeps its length and order and
    all other tasks.  In the changed task every field present in the patch
    has the patch's value and every other field except the colour keeps its
    value (a shallow merge); [nextId] and the critical set stay. *)
Theorem update_merges_into_first_match (s : Store) (clk : Clock) (id : Z)
    (fields : Patch) :
  id ∈ map t_id (data s) ->
  let r := update clk id fields s in
  exists pre t post t',
    data s = pre ++ t :: post /\ t_id t = id /\
    Forall (fun u => t_id u <> id) pre /\
    data (res_store r) = pre ++ t' :: post /\
    t_id t' = default (t_id t) (p_id fields) /\
    t_type t' = default (t_type t) (p_type fields) /\
    t_task t' = default (t_task t) (p_task fields) /\
    t_start t' = default (t_start t) (p_start fields) /\
    t_end t' = default (t_end t) (p_end fields) /\
    t_progress t' = default (t_progress t) (p_progress fields) /\
    t_priority t' = default (t_priority t) (p_priority fields) /\
    t_milestone t' = default (t_milestone t) (p_milestone fields) /\
    t_owner t' = default (t_owner t) (p_owner fields) /\
    t_dependencies t' = default (t_dependencies t) (p_dependencies fields) /\
    nextId (res_store r) = nextId s /\
    criticalTasks (res_store r) = criticalTasks s /\
    (quiet s -> res_val r = Normal (Some t')).
Proof.
  intros Hin r. destruct (find_id_found _ _ Hin) as [t Ht].
  destruct (find_id_split id (data s) t (patched (types s) t fields) Ht)
    as (pre & post & Hd & Hid & Hpre & Hr).
  exists pre, t, post, (patched (types s) t fields). subst r.
  rewrite (update_store _ _ _ _ _ Ht), (update_eq _ _ _ _ _ Ht).
  set (s0 := set_data (replace_first id (patched (types s) t fields) (data s)) s).
  destruct (saved_frame clk "Обновление работы" s0) as (Hdata & Hnext & Hcrit).
  rewrite Hdata, Hnext, Hcrit. subst s0; simpl.
  assert (Hq : quiet s ->
    res_val (announce "update" (Some (patched (types s) t fields))
               (Some (patched (types s) t fields))
               (saved clk "Обновление работы"
                  (set_data (replace_first id (patched (types s) t fields) (data s)) s)))
    = Normal (Some (patched (types s) t fields))).
  { intros Hq. apply announce_quiet. unfold quiet. now rewrite saved_subscribers. }
  unfold patched in *.
  destruct (truthy_str (p_type fields)), (truthy_str (p_color fields));
    simpl; repeat split; auto.
Qed.


Lemma or_str_same (x : string) : or_str (Some x) empty_string = x.
Proof.
  unfold or_str, truthy_str. now destruct (decide (x = empty_string)) as [->|].
Qed.

Lemma or_str_nonempty (x d : string) : x <> empty_string -> or_str (Some x) d = x.
Proof.
  intros H. unfold or_str, truthy_str. now destruct (decide (x = empty_string)).
Qed.

Lemma or_num_same (p : Z) : or_num (Some p) 0 = p.
Proof. unfold or_num. now destruct (Z.eqb_spec p 0) as [->|]. Qed.

Lemma or_bool_same (b : bool) : or_bool (Some b) false = b.
Proof. now destruct b. Qed.

Lemma append_copy_nonempty (x : string) :
  String.append x " (копия)" <> empty_string.
Proof. destruct x; discriminate. Qed.

(** X12.  [duplicate] of an id that no task has returns [null], calls no
    subscriber and leaves the store as it is.  For an id that occurs,
    [duplicate] appends one task and keeps all the others: the new task has
    the next id, the title of the first task with that id followed by the
    copy mark, and the same type, progress, milestone flag, owner and
    dependencies; start, end, priority and colour are the same whenever
    they are not empty. *)
Theorem duplicate_appends_copy (s : Store) (clk : Clock) (id : Z) :
  (getById id s = None -> duplicate clk id s = mkResult s [] (Normal None)) /\
  (forall t, getById id s = Some t ->
     let r := duplicate clk id s in
     exists c,
       data (res_store r) = data s ++ [c] /\
       t_id c = nextId s /\
       nextId (res_store r) = nextId s + 1 /\
       t_task c = String.append (t_task t) " (копия)" /\
       t_type c = t_type t /\ t_progress c = t_progress t /\
       t_milestone c = t_milestone t /\ t_owner c = t_owner t /\
       t_dependencies c = t_dependencies t /\
       (t_start t <> empty_string -> t_start c = t_start t) /\
       (t_end t <> empty_string -> t_end c = t_end t) /\
       (t_priority t <> empty_string -> t_priority c = t_priority t) /\
       (t_color t <> empty_string -> t_color c = t_color t) /\
       (quiet s -> res_val r = Normal (Some c))).
Proof.
  split.
  - intros H. unfold duplicate. now rewrite bind_get, H.
  - intros t Ht r. exists (new_task clk (copy_input t) s). subst r.
    assert (Hv : quiet s ->
      res_val (duplicate clk id s) = Normal (Some (new_task clk (copy_input t) s))).
    { intros Hq. unfold duplicate. rewrite bind_get, Ht. unfold bind.
      rewrite add_eq, announce_quiet; [reflexivity|].
      unfold quiet. now rewrite saved_subscribers. }
    rewrite duplicate_store, Ht, add_store.
    destruct (saved_frame clk "Добавление работы" (pushed clk (copy_input t) s))
      as (-> & -> & _).
    revert Hv. generalize (res_val (duplicate clk id s)). intros v Hv.
    cbn -[or_str or_num or_bool String.append].
    rewrite !or_str_same, or_num_same, or_bool_same.
    rewrite (or_str_nonempty _ _ (append_copy_nonempty (t_task t))).
    repeat split; auto using or_str_nonempty.
Qed.

Lemma notify_trace_quiet (a : string) (p : option Task) (s : Store) :
  quiet s ->
  res_trace (notify a p s) = map (fun cb => Invoke (cb_id cb) a p) (subscribers s).
Proof.
  intros Hq. unfold notify. rewrite forEach_call_quiet; [reflexivity|].
  eapply Forall_impl; [exact Hq|]. simpl. auto.
Qed.

Lemma announce_trace_quiet {A} (a : string) (p : option Task) (v : A) (s : Store) :
  quiet s ->
  res_trace (announce a p v s) =
  map (fun cb => Invoke (cb_id cb) "history-change" None) (subscribers s) ++
  map (fun cb => Invoke (cb_id cb) a p) (subscribers s).
Proof.
  intros Hq. unfold announce, bind.
  rewrite (notify_quiet _ _ s Hq). simpl. rewrite notify_store.
  rewrite (notify_quiet _ _ s Hq). simpl.
  rewrite !notify_trace_quiet by exact Hq. now rewrite app_nil_r.
Qed.

(** X13.  With subscribers that do not throw, an edit calls every
    subscriber exactly twice: first all of them, in registration order,
    with ['history-change'] and no payload, then all of them with the
    action and the task -- ['add'] with the new task, ['update'] with the
    patched task, ['delete'] with the removed task.  An [update] or
    [delete] of an unknown id calls nobody. *)
Theorem edit_notifies_history_change_then_action (s : Store) (clk : Clock) :
  quiet s ->
  let twice (a : string) (t : Task) :=
    map (fun cb => Invoke (cb_id cb) "history-change" None) (subscribers s) ++
    map (fun cb => Invoke (cb_id cb) a (Some t)) (subscribers s) in
  (forall task, exists t,
     res_val (add clk task s) = Normal t /\
     res_trace (add clk task s) = twice "add" t) /\
  (forall id fields,
     match res_val (update clk id fields s) with
     | Normal (Some t) => res_trace (update clk id fields s) = twice "update" t
     | Normal None => res_trace (update clk id fields s) = []
     | Throw _ => False
     end) /\
  (forall id,
     match res_val (delete clk id s) with
     | Normal (Some t) => res_trace (delete clk id s) = twice "delete" t
     | Normal None => res_trace (delete clk id s) = []
     | Throw _ => False
     end).
Proof.
  intros Hq twice.
  assert (Hs : forall d s0, subscribers s0 = subscribers s ->
                 quiet (saved clk d s0)).
  { intros d s0 E. unfold quiet. now rewrite saved_subscribers, E. }
  assert (Hsub : forall d s0, subscribers s0 = subscribers s ->
                 subscribers (saved clk d s0) = subscribers s).
  { intros d s0 E. now rewrite saved_subscribers. }
  split; [|split].
  - intros task. exists (new_task clk task s). rewrite add_eq.
    rewrite announce_quiet, announce_trace_quiet by (now apply Hs).
    now rewrite Hsub.
  - intros id fields. destruct (getById id s) as [t|] eqn:E.
    + rewrite (update_eq _ _ _ _ _ E).
      rewrite announce_quiet, announce_trace_quiet by (now apply Hs).
      now rewrite Hsub.
    + now rewrite update_none.
  - intros id. destruct (findIndex id (data s)) as [i|] eqn:E.
    + rewrite (delete_eq _ _ _ _ E).
      rewrite announce_quiet, announce_trace_quiet by (now apply Hs).
      destruct (findIndex_split _ _ _ E) as (pre & t & post & _ & _ & _ & Hl & _).
      rewrite Hl. now rewrite Hsub.
    + now rewrite delete_none.
Qed.

(** ** Critical marks *)

Lemma set_has_add (j id : Z) (c : JsSet) :
  set_has j (set_add id c) = if decide (j = id) then true else set_has j c.
Proof.
  unfold set_add. destruct (set_has id c) eqn:E.
  - destruct (decide (j = id)) as [->|]; [exact E | reflexivity].
  - unfold set_has. destruct (decide (j = id)) as [->|Hj].
    + apply bool_decide_eq_true_2. rewrite elem_of_app, list_elem_of_singleton. auto.
    + apply bool_decide_ext. rewrite elem_of_app, list_elem_of_singleton. tauto.
Qed.

(** X14.  [toggleCritical] flips the mark of its id and of no other id; it
    changes neither the tasks nor the history, calls no subscriber, and
    writes no snapshot. *)
Theorem toggleCritical_flips_one_mark (s : Store) (id : Z) :
  let r := toggleCritical id s in
  isCritical id (res_store r) = negb (isCritical id s) /\
  (forall j, j <> id -> isCritical j (res_store r) = isCritical j s) /\
  data (res_store r) = data s /\
  history (res_store r) = history s /\
  historyIndex (res_store r) = historyIndex s /\
  res_trace r = [] /\ res_val r = Normal tt.
Proof.
  cbv zeta. unfold toggleCritical, modify, isCritical; simpl.
  destruct (set_has id (criticalTasks s)) eqn:E; simpl; repeat split; auto.
  - rewrite set_has_delete. now destruct (decide (id = id)).
  - intros j Hj. rewrite set_has_delete. now destruct (decide (j = id)).
  - rewrite set_has_add. now destruct (decide (id = id)).
  - intros j Hj. rewrite set_has_add. now destruct (decide (j = id)).
Qed.

Lemma run_toggles (ids : list Z) (s : Store) :
  exists c, run (map CToggleCritical ids) s = set_criticalTasks c s.
Proof.
  revert s. induction ids as [|i ids IH]; intros s.
  - exists (criticalTasks s). now destruct s.
  - destruct (IH (res_store (toggleCritical i s))) as [c Hc].
    exists c. change (run (map CToggleCritical (i :: ids)) s)
      with (run (map CToggleCritical ids) (res_store (toggleCritical i s))).
    rewrite Hc. unfold toggleCritical, modify; simpl.
    now destruct (set_has i (criticalTasks s)).
Qed.

(** X15.  [calculateCriticalPath] starts from the empty set, so marks set
    by hand do not survive it: after any sequence of [toggleCritical]
    calls it returns the same ids and leaves the same store as it does
    without them. *)
Theorem calculateCriticalPath_discards_toggles (s : Store) (ids : list Z) :
  calculateCriticalPath (run (map CToggleCritical ids) s) =
  calculateCriticalPath s.
Proof.
  destruct (run_toggles ids s) as [c ->].
  now rewrite !calculateCriticalPath_eq.
Qed.

(** ** The type registry *)






(** ** Import and export *)

Lemma forEach_call_exists (cbs : list Subscriber) (a : string) (p : option Task) :
  Exists (fun cb => cb_throws cb a p = true) cbs ->
  exists e, (forEach_call cbs a p).2 = Throw e.
Proof.
  induction 1 as [cb cbs H | cb cbs _ IH]; simpl.
  - rewrite H. now eexists.
  - destruct (cb_throws cb a p); [now eexists|].
    destruct (forEach_call cbs a p) as [tr c]; simpl in *. exact IH.
Qed.

Lemma notify_throws (a : string) (p : option Task) (s : Store) :
  Exists (fun cb => cb_throws cb a p = true) (subscribers s) ->
  exists e, res_val (notify a p s) = Throw e.
Proof.
  intros H. unfold notify.
  destruct (forEach_call_exists _ _ _ H) as [e He].
  destruct (forEach_call (subscribers s) a p) as [tr c]; simpl in *. now exists e.
Qed.

(** X20.  [importData] is not all-or-nothing when a subscriber throws.  If
    a subscriber throws on the ['import'] notification, [importData]
    returns [false], and yet the imported tasks have replaced the task list
    and [nextId] has been recomputed from them. *)
Theorem importData_false_after_replacing (s : Store) (clk : Clock)
    (v : ImportValue) (tasks : list Task) :
  imp_data v = Some tasks ->
  Exists (fun cb => cb_throws cb "import" None = true) (subscribers s) ->
  let r := importData clk (Value v) s in
  res_val r = Normal false /\
  data (res_store r) = tasks /\
  nextId (res_store r) = max_with_zero (map t_id tasks) + 1.
Proof.
  intros Hd Hex r. subst r. rewrite importData_store.
  set (s0 := saved clk "Импорт данных" (imported_store v s)).
  assert (Hsub : subscribers s0 = subscribers s).
  { subst s0. rewrite saved_subscribers. unfold imported_store, import_filled,
      import_typed, import_named.
    now destruct (truthy_str _), (imp_types v), (imp_data v). }
  split.
  - rewrite importData_value. fold s0. unfold try_catch.
    assert (Ht : exists e, res_val (announce "import" None true s0) = Throw e).
    { unfold announce, bind.
      destruct (res_val (notify "history-change" None s0)) eqn:E1; simpl;
        [|now eexists].
      rewrite notify_store.
      destruct (notify_throws "import" None s0) as [e He];
        [now rewrite Hsub|]. rewrite He. now eexists. }
    destruct Ht as [e ->]. reflexivity.
  - subst s0.
    destruct (saved_frame clk "Импорт данных" (imported_store v s)) as (-> & -> & _).
    unfold imported_store, import_filled. rewrite Hd. simpl. now split.
Qed.



Lemma saved_registry (clk : Clock) (d : string) (s : Store) :
  types (saved clk d s) = types s /\ projectName (saved clk d s) = projectName s.
Proof. unfold saved. now destruct (Z.of_nat (length _) >? maxHistory s). Qed.

Lemma imported_store_registry (v : ImportValue) (s : Store) :
  types (imported_store v s) =
    match imp_types v with Some tys => tys ∪ DEFAULT_TYPES | None => types s end /\
  projectName (imported_store v s) = or_str (imp_projectName v) (projectName s) /\
  subscribers (imported_store v s) = subscribers s.
Proof.
  unfold imported_store, import_filled, import_typed, import_named, or_str.
  now destruct (truthy_str _), (imp_types v), (imp_data v).
Qed.

(** X22.  The registry after an import.  When the imported value has
    [types], the registry becomes the default types overlaid with the
    imported ones: an imported entry wins, a default entry fills in, and
    every other entry the store had before is gone.  Without [types] the
    registry stays as it is. *)
Theorem importData_types_over_defaults (s : Store) (clk : Clock) (v : ImportValue) :
  let s' := res_store (importData clk (Value v) s) in
  (forall tys, imp_types v = Some tys ->
     forall k, types s' !! k =
               match tys !! k with
               | Some c => Some c
               | None => DEFAULT_TYPES !! k
               end) /\
  (imp_types v = None -> types s' = types s).
Proof.
  cbv zeta. rewrite importData_store.
  destruct (saved_registry clk "Импорт данных" (imported_store v s)) as [-> _].
  destruct (imported_store_registry v s) as (-> & _ & _). split.
  - intros tys ->. intros k. rewrite lookup_union.
    destruct (tys !! k), (DEFAULT_TYPES !! k); reflexivity.
  - now intros ->.
Qed.

(** X23.  Export then import.  Importing what [exportData] returned for a
    store [s] into any store gives the task list of [s], the registry of
    [s] completed by the default types, and the project name of [s] when
    that is not empty; the export date is ignored.  With subscribers that
    do not throw the import returns [true]. *)
Theorem export_import_roundtrip (s target : Store) (clk : Clock)
    (exportedAt : string) :
  let r := importData clk (Value (exported_value (exportData exportedAt s)))
             target in
  data (res_store r) = data s /\
  (forall k c, types s !! k = Some c -> types (res_store r) !! k = Some c) /\
  (forall k, types s !! k = None ->
             types (res_store r) !! k = DEFAULT_TYPES !! k) /\
  (projectName s <> empty_string -> projectName (res_store r) = projectName s) /\
  (projectName s = empty_string ->
   projectName (res_store r) = projectName target) /\
  (quiet target -> res_val r = Normal true).
Proof.
  cbv zeta. rewrite importData_store.
  set (v := exported_value (exportData exportedAt s)).
  destruct (saved_frame clk "Импорт данных" (imported_store v target)) as (-> & _ & _).
  destruct (saved_registry clk "Импорт данных" (imported_store v target)) as [-> ->].
  destruct (imported_store_registry v target) as (-> & -> & Hsub).
  subst v. cbn [exported_value exportData imp_types imp_projectName
                ex_types ex_projectName ex_data].
  repeat split.
  - intros k c Hk. rewrite lookup_union, Hk. now destruct (DEFAULT_TYPES !! k).
  - intros k Hk. rewrite lookup_union, Hk. now destruct (DEFAULT_TYPES !! k).
  - intros Hn. now apply or_str_nonempty.
  - intros ->. reflexivity.
  - intros Hq. rewrite importData_value. unfold try_catch.
    assert (Ha : res_val (announce "import" None true
                   (saved clk "Импорт данных"
                      (imported_store (exported_value (exportData exportedAt s))
                         target))) = Normal true).
    { apply announce_quiet. unfold quiet. now rewrite saved_subscribers, Hsub. }
    rewrite Ha. exact Ha.
Qed.

(** ** Subscriptions *)

Lemma forEach_call_events (cbs : list Subscriber) (a : string) (p : option Task)
    (ev : Event) :
  ev ∈ (forEach_call cbs a p).1 ->
  exists cb, cb ∈ cbs /\ ev = Invoke (cb_id cb) a p.
Proof.
  induction cbs as [|cb cbs IH]; simpl.
  - intros H. now apply elem_of_nil in H.
  - destruct (cb_throws cb a p); simpl.
    + intros H. apply list_elem_of_singleton in H. exists cb. split; [now left | exact H].
    + destruct (forEach_call cbs a p) as [tr c]; simpl in *.
      intros H. apply elem_of_cons in H as [H|H].
      * exists cb. split; [now left | exact H].
      * destruct (IH H) as (cb' & Hin & E). exists cb'. split; [now right | exact E].
Qed.

Lemma notify_events (a : string) (p : option Task) (s : Store) (ev : Event) :
  ev ∈ res_trace (notify a p s) ->
  exists cb, cb ∈ subscribers s /\ ev = Invoke (cb_id cb) a p.
Proof.
  unfold notify. pose proof (forEach_call_events (subscribers s) a p ev) as H.
  destruct (forEach_call (subscribers s) a p) as [tr c]; simpl in *. exact H.
Qed.

(** X24.  The function [subscribe] returns removes every registration of
    its callback and no other: the remaining subscribers keep their order,
    and no later notification calls the callback.  Subscribing a callback
    that was not registered and unsubscribing it again gives back the store
    as it was. *)
Theorem unsubscribe_stops_calls (s : Store) (callback : Subscriber) :
  let s' := res_store (unsubscribe callback s) in
  (forall cb, cb ∈ subscribers s' <->
              cb ∈ subscribers s /\ cb_id cb <> cb_id callback) /\
  sublist (subscribers s') (subscribers s) /\
  (forall a p i a' p',
     Invoke i a' p' ∈ res_trace (notify a p s') -> i <> cb_id callback) /\
  (cb_id callback ∉ map cb_id (subscribers s) ->
   res_store (unsubscribe callback (res_store (subscribe callback s))) = s).
Proof.
  cbv zeta. unfold unsubscribe, subscribe, modify; simpl.
  split; [|split; [|split]].
  - intros cb. rewrite list_elem_of_filter. tauto.
  - apply sublist_filter.
  - intros a p i a' p' H. apply notify_events in H as (cb & Hin & E).
    simpl in Hin. apply list_elem_of_filter in Hin as [Hne _].
    injection E as -> _ _. exact Hne.
  - intros Hn. unfold set_subscribers; simpl.
    rewrite filter_app.
    assert (E0 : filter (fun cb => cb_id cb <> cb_id callback) [callback] = []).
    { rewrite filter_cons. now destruct (decide (cb_id callback <> cb_id callback)). }
    rewrite E0, app_nil_r.
    assert (E : filter (fun cb => cb_id cb <> cb_id callback) (subscribers s)
                = subscribers s).
    { induction (subscribers s) as [|x l IH]; [reflexivity|].
      rewrite filter_cons.
      destruct (decide (cb_id x <> cb_id callback)) as [Hx|Hx].
      - f_equal. apply IH. intros Hin. apply Hn. simpl. now right.
      - exfalso. apply Hn. simpl.
        destruct (decide (cb_id x = cb_id callback)) as [Ex|Ex]; [|contradiction].
        rewrite <- Ex. now left. }
    rewrite E. now destruct s.
Qed.

(** X25.  [subscribe] registers the callback behind the others: when none
    of the subscribers already registered throws on a notification, they
    are called as before and the new callback is called after them. *)
Theorem subscribe_called_last (s : Store) (callback : Subscriber)
    (a : string) (p : option Task) :
  Forall (fun cb => cb_throws cb a p = false) (subscribers s) ->
  let s' := res_store (subscribe callback s) in
  subscribers s' = subscribers s ++ [callback] /\
  res_trace (notify a p s') =
    res_trace (notify a p s) ++ [Invoke (cb_id callback) a p].
Proof.
  intros Hq. cbv zeta. unfold subscribe, modify; simpl. split; [reflexivity|].
  unfold notify; simpl. rewrite (forEach_call_quiet _ _ _ Hq). simpl.
  destruct (cb_throws callback a p) eqn:E.
  - rewrite <- (app_nil_r (subscribers s ++ [callback])), <- app_assoc. simpl.
    rewrite (forEach_call_throw _ [] callback a p Hq E). simpl.
    now rewrite map_app.
  - rewrite forEach_call_quiet.
    + simpl. now rewrite map_app.
    + apply Forall_app. split; [exact Hq|]. now constructor.
Qed.

(** ** The table editor *)

(** X26.  Whatever is typed into the progress field of a row, the progress
    [Table.saveRow] commits to a task of the list is an integer between 0
    and 100; the task keeps its id, its milestone flag and its
    dependencies, and takes type, title, start, end, priority and owner
    from the row. *)
Theorem saveRow_commits_progress_in_range (s : Store) (clk : Clock) (id : Z)
    (row : RowInputs) (t : Task) :
  getById id s = Some t ->
  exists t',
    data (res_store (saveRow clk id row s)) = replace_first id t' (data s) /\
    t' ∈ data (res_store (saveRow clk id row s)) /\
    0 <= t_progress t' <= 100 /\
    t_id t' = id /\
    t_milestone t' = t_milestone t /\
    t_dependencies t' = t_dependencies t /\
    t_type t' = row_type row /\ t_task t' = row_task row /\
    t_start t' = row_start row /\ t_end t' = row_end row /\
    t_priority t' = row_priority row /\ t_owner t' = row_owner row.
Proof.
  intros Ht. exists (patched (types s) t (saveRow_fields (types s) row)).
  unfold saveRow. rewrite bind_get.
  rewrite bind_store_notifier by (intros a; apply notifier_ret).
  unfold getTypes. rewrite (update_store _ _ _ _ _ Ht).
  destruct (saved_frame clk "Обновление работы"
    (set_data (replace_first id
       (patched (types s) t (saveRow_fields (types s) row)) (data s)) s))
    as (-> & _ & _). simpl.
  split; [reflexivity|]. split; [eapply replace_first_found; exact Ht|].
  apply find_id_some in Ht as [_ Hid].
  unfold patched, saveRow_fields. cbn -[saveRow_progress truthy_str or_str].
  assert (Hp : 0 <= saveRow_progress (parseInt_str (row_progress row)) <= 100).
  { unfold saveRow_progress. lia. }
  destruct (truthy_str (Some (row_type row))) as [ty|];
    [destruct (truthy_str (truthy_str (types s !! ty)))|];
    cbn -[saveRow_progress truthy_str or_str]; repeat split; auto; lia.
Qed.



(** ** Filtering *)

Lemma List_filter_sublist {A} (f : A -> bool) (l : list A) :
  sublist (List.filter f l) l.
Proof.
  induction l as [|x l IH]; simpl; [constructor|].
  destruct (f x); [now apply sublist_skip | now apply sublist_cons].
Qed.

Lemma elem_of_List_filter {A} (f : A -> bool) (l : list A) (x : A) :
  x ∈ List.filter f l <-> x ∈ l /\ f x = true.
Proof. rewrite !list_elem_of_In. apply filter_In. Qed.

(** X28.  [filter] returns the tasks of the list that satisfy all the
    options that are given, in the order of the list: a task is in the
    result exactly when it is in the list, its lower-cased title or type
    contains the lower-cased search text (when one is given), its type and
    priority are the ones asked for (when given), and it is critical (when
    [criticalOnly] is set).  An option that is missing or empty excludes
    nothing. *)
Theorem filter_keeps_tasks_matching_all (toLowerCase : string -> string)
    (options : FilterOptions) (s : Store) :
  sublist (Store_filter toLowerCase options s) (data s) /\
  forall t,
    t ∈ Store_filter toLowerCase options s <->
    t ∈ data s /\
    (forall q, truthy_str (f_search options) = Some q ->
       includes (toLowerCase (t_task t)) (toLowerCase q) = true \/
       includes (toLowerCase (t_type t)) (toLowerCase q) = true) /\
    (forall ty, truthy_str (f_type options) = Some ty -> t_type t = ty) /\
    (forall p, truthy_str (f_priority options) = Some p -> t_priority t = p) /\
    (f_criticalOnly options = Some true -> isCritical (t_id t) s = true).
Proof.
  unfold Store_filter, isCritical. split.
  - destruct (truthy_str (f_search options)), (truthy_str (f_type options)),
      (truthy_str (f_priority options)), (or_bool (f_criticalOnly options) false);
      repeat (etransitivity; [apply List_filter_sublist|]); reflexivity.
  - intros t.
    assert (Hc : or_bool (f_criticalOnly options) false = true <->
                 f_criticalOnly options = Some true).
    { destruct (f_criticalOnly options) as [[|]|]; simpl; split; congruence. }
    destruct (truthy_str (f_search options)) as [q|],
             (truthy_str (f_type options)) as [ty|],
             (truthy_str (f_priority options)) as [p|],
             (or_bool (f_criticalOnly options) false) eqn:Ec;
      rewrite ?elem_of_List_filter, ?bool_decide_eq_true, ?orb_true_iff;
      (split;
       [ intros H; repeat split; try tauto;
         try (intros x [= <-]; tauto);
         try (intros Hx; apply Hc in Hx; congruence);
         try discriminate
       | intros (Hin & Hq & Hty & Hp & Hcr); repeat split; auto;
         try (apply Hcr, Hc; reflexivity) ]).
Qed.

(** ** Authorization *)

(** X29.  [login] succeeds exactly for a user name and password that
    belong to one of the listed users, compared as they are.  On success
    the current user is that user's name and display name; on failure
    [login] returns [false] and the current user stays who it was, so a
    failed attempt does not log anybody out.  After [logout] nobody is
    logged in. *)
Theorem login_checks_listed_users (username password : string)
    (currentUser : option Session) :
  let r := login username password currentUser in
  (r.2 = true <->
   exists u, u ∈ USERS /\ u_username u = username /\ u_password u = password) /\
  (r.2 = true ->
   isLoggedIn r.1 = true /\
   exists u, u ∈ USERS /\ u_password u = password /\
             r.1 = Some (mkSession username (u_name u))) /\
  (r.2 = false -> r.1 = currentUser) /\
  isLoggedIn (logout r.1) = false.
Proof.
  cbv zeta. unfold login.
  destruct (find _ USERS) as [u|] eqn:E.
  - apply find_some in E as [Hin Hm].
    apply andb_true_iff in Hm as [Hu Hp].
    apply bool_decide_eq_true in Hu, Hp. apply list_elem_of_In in Hin.
    simpl. split; [split; [intros _; now exists u | reflexivity]|].
    split; [intros _; split; [reflexivity|]; exists u; rewrite Hu; auto|].
    split; [discriminate | reflexivity].
  - simpl. split; [split; [discriminate|]|].
    + intros (u & Hin & Hu & Hp). apply list_elem_of_In in Hin.
      pose proof (find_none _ _ E u Hin) as Hf. simpl in Hf.
      rewrite (bool_decide_eq_true_2 _ Hu), (bool_decide_eq_true_2 _ Hp) in Hf.
      discriminate.
    + split; [discriminate|]. split; reflexivity.
Qed.

(** ** Utilities *)

Lemma chars_append (a b : string) :
  list_ascii_of_string (String.append a b) =
  list_ascii_of_string a ++ list_ascii_of_string b.
Proof. induction a as [|c a IH]; simpl; [reflexivity | now rewrite IH]. Qed.

Lemma escape_char_plain (c : ascii) :
  ~ special c -> escape_char c = String c EmptyString.
Proof.
  unfold special, escape_char. intros H.
  repeat match goal with
         | |- context [Ascii.eqb ?a ?b] =>
             destruct (Ascii.eqb_spec a b); [exfalso; apply H; tauto|]
         end.
  reflexivity.
Qed.

Lemma escape_char_safe (c x : ascii) :
  x ∈ list_ascii_of_string (escape_char c) ->
  x <> "<"%char /\ x <> ">"%char /\ x <> dquote /\ x <> "'"%char.
Proof.
  unfold escape_char.
  repeat match goal with
         | |- context [Ascii.eqb ?a ?b] => destruct (Ascii.eqb_spec a b)
         end; simpl; intros H;
    repeat (apply elem_of_cons in H as [-> | H]; [repeat split; try discriminate|]);
    try (now apply elem_of_nil in H); try congruence.
Qed.

(** X30.  [escapeHtml] leaves none of the characters [<], [>], the double
    quote and the single quote in its result; a text that has none of the
    five characters it replaces comes back as it is; and a missing or
    empty argument gives the empty string. *)
Theorem escapeHtml_removes_markup (s : string) :
  (forall x, x ∈ list_ascii_of_string (escapeHtml (Some s)) ->
     x <> "<"%char /\ x <> ">"%char /\ x <> dquote /\ x <> "'"%char) /\
  (Forall (fun c => ~ special c) (list_ascii_of_string s) ->
   escapeHtml (Some s) = s) /\
  escapeHtml None = empty_string /\
  escapeHtml (Some empty_string) = empty_string.
Proof.
  assert (Hsafe : forall s x, x ∈ list_ascii_of_string (escape_all s) ->
            x <> "<"%char /\ x <> ">"%char /\ x <> dquote /\ x <> "'"%char).
  { clear s. induction s as [|c s IH]; simpl; intros x H.
    - now apply elem_of_nil in H.
    - rewrite chars_append in H. apply elem_of_app in H as [H|H].
      + now apply (escape_char_safe c).
      + now apply IH. }
  assert (Hplain : forall s, Forall (fun c => ~ special c) (list_ascii_of_string s) ->
            escape_all s = s).
  { clear s Hsafe. induction s as [|c s IH]; simpl; intros H; [reflexivity|].
    apply Forall_cons in H as [Hc H].
    rewrite (escape_char_plain c Hc), IH by exact H. reflexivity. }
  unfold escapeHtml. split; [|split; [|split; reflexivity]].
  - intros x. simpl. destruct (decide (s = empty_string)); [|apply Hsafe].
    intros H. now apply elem_of_nil in H.
  - intros H. simpl. destruct (decide (s = empty_string)) as [->|]; [reflexivity|].
    now apply Hplain.
Qed.

(** ** The further properties at concrete stores *)

Lemma history_bounded_cursor_valid_witness :
  reachable full_store /\ (length (history full_store) <= 50)%nat.
Proof.
  assert (Hr : reachable full_store).
  { exists None, None, (repeat (CAdd sample_clock blank_input) 50). reflexivity. }
  split; [exact Hr|].
  exact (proj1 (history_bounded_cursor_valid full_store Hr)).
Defined.

Lemma undo_agrees_with_canUndo_witness :
  reachable two_tasks /\ canUndo two_tasks = true /\
  exists e, at_index (history two_tasks) (historyIndex two_tasks - 1) = Some e /\
            data (res_store (undo two_tasks)) = snap_data (h_state e).
Proof.
  assert (Hr : reachable two_tasks).
  { exists None, None,
      [CAdd sample_clock blank_input; CAdd sample_clock blank_input].
    reflexivity. }
  assert (Hc : canUndo two_tasks = true) by (vm_compute; reflexivity).
  split; [exact Hr|]. split; [exact Hc|].
  destruct (proj2 (undo_agrees_with_canUndo two_tasks Hr) Hc)
    as (e & He & _ & _ & Hd & _).
  exists e. split; [exact He | exact Hd].
Defined.

Lemma redo_agrees_with_canRedo_witness :
  reachable (step CUndo two_tasks) /\ canRedo (step CUndo two_tasks) = true /\
  res_val (redo (step CUndo two_tasks)) <> Normal false.
Proof.
  assert (Hr : reachable (step CUndo two_tasks)).
  { apply reachable_step. exists None, None,
      [CAdd sample_clock blank_input; CAdd sample_clock blank_input].
    reflexivity. }
  assert (Hc : canRedo (step CUndo two_tasks) = true) by (vm_compute; reflexivity).
  split; [exact Hr|]. split; [exact Hc|].
  destruct (proj2 (redo_agrees_with_canRedo (step CUndo two_tasks) Hr) Hc)
    as (e & _ & _ & _ & _ & _ & _ & Hv & _).
  exact Hv.
Defined.

Lemma undo_takes_back_last_edit_witness :
  0 <= historyIndex (run (map call_of [EAdd sample_clock blank_input])
                       (fresh_store None None [silent_subscriber])) /\
  data (res_store
          (undo (step (call_of (EAdd sample_clock (progress_input 40)))
                   (run (map call_of [EAdd sample_clock blank_input])
                      (fresh_store None None [silent_subscriber])))))
  = data (run (map call_of [EAdd sample_clock blank_input])
            (fresh_store None None [silent_subscriber])).
Proof.
  assert (H0 : 0 <= historyIndex (run (map call_of [EAdd sample_clock blank_input])
                       (fresh_store None None [silent_subscriber])))
    by (vm_compute; discriminate).
  split; [exact H0|].
  exact (proj1 (undo_takes_back_last_edit None None [silent_subscriber]
                  [EAdd sample_clock blank_input]
                  (EAdd sample_clock (progress_input 40)) H0 eq_refl)).
Defined.

Lemma registry_changes_write_no_snapshot_witness :
  unrecorded (CUpdateType "Монтаж" "Сборка" "#ffcc00") = true /\
  history (step (CUpdateType "Монтаж" "Сборка" "#ffcc00") demo_store)
  = history demo_store.
Proof.
  split; [reflexivity|].
  exact (proj1 (registry_changes_write_no_snapshot
                  (CUpdateType "Монтаж" "Сборка" "#ffcc00") demo_store eq_refl)).
Defined.

Lemma rename_lost_by_undo_redo_witness :
  0 < historyIndex (run (map call_of
                      [EAdd sample_clock
                         (mkInput (Some "Монтаж") None None None None None
                                  None None None None);
                       EAdd sample_clock blank_input])
                      (fresh_store None None [])) /\
  data (res_store (redo (res_store (undo
          (res_store (updateType "Монтаж" "Сборка" "#ffcc00"
             (run (map call_of
                     [EAdd sample_clock
                        (mkInput (Some "Монтаж") None None None None None
                                 None None None None);
                      EAdd sample_clock blank_input])
                  (fresh_store None None []))))))))
  = data (run (map call_of
                 [EAdd sample_clock
                    (mkInput (Some "Монтаж") None None None None None
                             None None None None);
                  EAdd sample_clock blank_input])
            (fresh_store None None [])).
Proof.
  assert (H0 : 0 < historyIndex (run (map call_of
                      [EAdd sample_clock
                         (mkInput (Some "Монтаж") None None None None None
                                  None None None None);
                       EAdd sample_clock blank_input])
                      (fresh_store None None []))) by (vm_compute; reflexivity).
  split; [exact H0|].
  exact (proj1 (rename_lost_by_undo_redo None None []
                  [EAdd sample_clock
                     (mkInput (Some "Монтаж") None None None None None
                              None None None None);
                   EAdd sample_clock blank_input]
                  "Монтаж" "Сборка" "#ffcc00" H0)).
Defined.

Lemma delete_removes_first_match_witness :
  (1 ∈ map t_id (data two_tasks)) /\
  exists pre t post,
    data two_tasks = pre ++ t :: post /\
    data (res_store (delete sample_clock 1 two_tasks)) = pre ++ post /\
    isCritical 1 (res_store (delete sample_clock 1 two_tasks)) = false.
Proof.
  assert (H : 1 ∈ map t_id (data two_tasks)).
  { apply (bool_decide_unpack _). vm_compute. exact I. }
  split; [exact H|].
  destruct (delete_removes_first_match two_tasks sample_clock 1 H)
    as (pre & t & post & Hd & _ & _ & Hd' & Hc & _).
  exists pre, t, post. split; [exact Hd|]. split; [exact Hd' | exact Hc].
Defined.

Lemma update_merges_into_first_match_witness :
  (2 ∈ map t_id (data two_tasks)) /\
  exists pre t post t',
    data two_tasks = pre ++ t :: post /\
    data (res_store (update sample_clock 2 (progress_patch 40) two_tasks))
      = pre ++ t' :: post /\
    t_progress t' = default (t_progress t) (p_progress (progress_patch 40)) /\
    t_task t' = default (t_task t) (p_task (progress_patch 40)).
Proof.
  assert (H : 2 ∈ map t_id (data two_tasks)).
  { apply (bool_decide_unpack _). vm_compute. exact I. }
  split; [exact H|].
  destruct (update_merges_into_first_match two_tasks sample_clock 2
              (progress_patch 40) H)
    as (pre & t & post & t' & Hd & _ & _ & Hd' & _ & _ & Ht & _ & _ & Hp & _).
  exists pre, t, post, t'. repeat split; assumption.
Defined.


Lemma duplicate_appends_copy_witness :
  getById 1 two_tasks = Some first_task /\
  exists c,
    data (res_store (duplicate sample_clock 1 two_tasks)) = data two_tasks ++ [c] /\
    t_id c = 3 /\
    t_task c = String.append (t_task first_task) " (копия)".
Proof.
  assert (H : getById 1 two_tasks = Some first_task) by (vm_compute; reflexivity).
  split; [exact H|].
  destruct (proj2 (duplicate_appends_copy two_tasks sample_clock 1) first_task H)
    as (c & Hd & Hi & _ & Ht & _).
  exists c. split; [exact Hd|]. split; [exact Hi | exact Ht].
Defined.

Lemma edit_notifies_history_change_then_action_witness :
  quiet watched_store /\
  exists t,
    res_val (add sample_clock blank_input watched_store) = Normal t /\
    res_trace (add sample_clock blank_input watched_store) =
      [Invoke 2 "history-change" None; Invoke 2 "add" (Some t)].
Proof.
  assert (Hq : quiet watched_store).
  { constructor; [intros a p; reflexivity | constructor]. }
  split; [exact Hq|].
  destruct (proj1 (edit_notifies_history_change_then_action watched_store
                     sample_clock Hq) blank_input) as (t & Hv & Ht).
  exists t. split; [exact Hv | exact Ht].
Defined.

Lemma toggleCritical_flips_one_mark_witness :
  2 <> 1 /\
  isCritical 2 (res_store (toggleCritical 1 two_tasks)) = isCritical 2 two_tasks.
Proof.
  assert (H : 2 <> 1) by lia.
  split; [exact H|].
  destruct (toggleCritical_flips_one_mark two_tasks 1) as (_ & Ho & _).
  exact (Ho 2 H).
Defined.





Lemma importData_false_after_replacing_witness :
  Exists (fun cb => cb_throws cb "import" None = true)
         (subscribers (fresh_store None None [throwing_subscriber])) /\
  res_val (importData sample_clock (Value (ImpArray [first_task]))
             (fresh_store None None [throwing_subscriber])) = Normal false /\
  data (res_store (importData sample_clock (Value (ImpArray [first_task]))
                     (fresh_store None None [throwing_subscriber])))
  = [first_task].
Proof.
  assert (H : Exists (fun cb => cb_throws cb "import" None = true)
                (subscribers (fresh_store None None [throwing_subscriber]))).
  { apply Exists_cons_hd. reflexivity. }
  split; [exact H|].
  destruct (importData_false_after_replacing
              (fresh_store None None [throwing_subscriber]) sample_clock
              (ImpArray [first_task]) [first_task] eq_refl H) as (Hv & Hd & _).
  split; [exact Hv | exact Hd].
Defined.


Lemma importData_types_over_defaults_witness :
  imp_types (ImpObject None (Some {["Свет" := "#123456"]}) None)
    = Some {["Свет" := "#123456"]} /\
  types (res_store (importData sample_clock
                      (Value (ImpObject None (Some {["Свет" := "#123456"]}) None))
                      two_tasks)) !! "Монтаж"
  = match ({["Свет" := "#123456"]} : gmap string string) !! "Монтаж" with
    | Some c => Some c
    | None => DEFAULT_TYPES !! "Монтаж"
    end.
Proof.
  split; [reflexivity|].
  destruct (importData_types_over_defaults two_tasks sample_clock
              (ImpObject None (Some {["Свет" := "#123456"]}) None)) as (Ht & _).
  exact (Ht {["Свет" := "#123456"]} eq_refl "Монтаж").
Defined.

Lemma export_import_roundtrip_witness :
  projectName demo_store <> empty_string /\
  data (res_store (importData sample_clock
                     (Value (exported_value
                               (exportData "2026-01-01T00:00:00.000Z" demo_store)))
                     two_tasks)) = data demo_store /\
  projectName (res_store (importData sample_clock
                     (Value (exported_value
                               (exportData "2026-01-01T00:00:00.000Z" demo_store)))
                     two_tasks)) = projectName demo_store.
Proof.
  assert (H : projectName demo_store <> empty_string) by (vm_compute; discriminate).
  split; [exact H|].
  destruct (export_import_roundtrip demo_store two_tasks sample_clock
              "2026-01-01T00:00:00.000Z") as (Hd & _ & _ & Hp & _).
  split; [exact Hd | exact (Hp H)].
Defined.

Lemma unsubscribe_stops_calls_witness :
  (cb_id silent_subscriber ∉ map cb_id (subscribers two_tasks)) /\
  res_store (unsubscribe silent_subscriber
               (res_store (subscribe silent_subscriber two_tasks))) = two_tasks.
Proof.
  assert (H : cb_id silent_subscriber ∉ map cb_id (subscribers two_tasks)).
  { apply (bool_decide_unpack _). vm_compute. exact I. }
  split; [exact H|].
  destruct (unsubscribe_stops_calls two_tasks silent_subscriber) as (_ & _ & _ & Hr).
  exact (Hr H).
Defined.

Lemma subscribe_called_last_witness :
  Forall (fun cb => cb_throws cb "add" None = false) (subscribers watched_store) /\
  res_trace (notify "add" None
               (res_store (subscribe throwing_subscriber watched_store)))
  = res_trace (notify "add" None watched_store) ++ [Invoke 1 "add" None].
Proof.
  assert (H : Forall (fun cb => cb_throws cb "add" None = false)
                (subscribers watched_store)).
  { constructor; [reflexivity | constructor]. }
  split; [exact H|].
  exact (proj2 (subscribe_called_last watched_store throwing_subscriber
                  "add" None H)).
Defined.

Lemma saveRow_commits_progress_in_range_witness :
  getById 1 two_tasks = Some first_task /\
  exists t',
    data (res_store (saveRow sample_clock 1 sample_row two_tasks))
      = replace_first 1 t' (data two_tasks) /\
    0 <= t_progress t' <= 100.
Proof.
  assert (H : getById 1 two_tasks = Some first_task) by (vm_compute; reflexivity).
  split; [exact H|].
  destruct (saveRow_commits_progress_in_range two_tasks sample_clock 1 sample_row
              first_task H) as (t' & Hd & _ & Hp & _).
  exists t'. split; [exact Hd | exact Hp].
Defined.


Lemma filter_keeps_tasks_matching_all_witness :
  truthy_str (f_priority (mkFilter None None (Some "high") None)) = Some "high" /\
  forall t,
    t ∈ Store_filter (fun x => x) (mkFilter None None (Some "high") None) demo_store ->
    t_priority t = "high".
Proof.
  assert (H : truthy_str (f_priority (mkFilter None None (Some "high") None))
              = Some "high") by reflexivity.
  split; [exact H|]. intros t Ht.
  destruct (filter_keeps_tasks_matching_all (fun x => x)
              (mkFilter None None (Some "high") None) demo_store) as [_ Hf].
  destruct (proj1 (Hf t) Ht) as (_ & _ & _ & Hp & _).
  exact (Hp "high" H).
Defined.

Lemma login_checks_listed_users_witness :
  (login "manager" "manager123" None).2 = true /\
  isLoggedIn (login "manager" "manager123" None).1 = true.
Proof.
  assert (H : (login "manager" "manager123" None).2 = true) by reflexivity.
  split; [exact H|].
  destruct (login_checks_listed_users "manager" "manager123" None)
    as (_ & Hs & _).
  exact (proj1 (Hs H)).
Defined.

Lemma escapeHtml_removes_markup_witness :
  Forall (fun c => ~ special c) (list_ascii_of_string "Монтаж 1") /\
  escapeHtml (Some "Монтаж 1") = "Монтаж 1".
Proof.
  assert (H : Forall (fun c => ~ special c) (list_ascii_of_string "Монтаж 1")).
  { repeat constructor; unfold special; intros [E|[E|[E|[E|E]]]]; discriminate. }
  split; [exact H|].
  destruct (escapeHtml_removes_markup "Монтаж 1") as (_ & Hp & _).
  exact (Hp H).
Defined.
